(** * Nautilus VSCode Widget: location resolution and launch safety

    A shallow embedding of the safety-relevant part of
    [nautilus-vscode-widget.py]: the two validators
    ([validate_editor_command], [validate_directory]), the editor
    launchers, the chain of directory-detection strategies and the bounded
    recursive folder search.

    Conventions of the embedding.
    - A Python [str] is a list of Unicode code points ([pystr]).
    - Python integers are [Z].
    - Everything the program asks of the operating system or of the
      interpreter's library (file metadata, PATH lookups, child processes,
      the clock, Unicode tables) is answered by a [host] record; the
      program itself is written in a state-and-exception monad [M] over a
      [world] that carries the host, the widget's fields, the log and the
      trace of externally visible actions.
    - Only exceptions deriving from Python's [Exception] are modelled. *)

From Stdlib Require Import List String Ascii Bool NArith ZArith Lia.
Import ListNotations.
Local Open Scope list_scope.

Set Implicit Arguments.

(* ===================================================================== *)
(** * Python strings *)
(* ===================================================================== *)

Module PyStr.

Local Open Scope N_scope.

Definition pystr := list N.

(** An ASCII literal as a Python string. *)
Definition u (s : string) : pystr :=
  List.map N_of_ascii (list_ascii_of_string s).

Fixpoint str_eqb (a b : pystr) : bool :=
  match a, b with
  | [], [] => true
  | x :: a', y :: b' => N.eqb x y && str_eqb a' b'
  | _, _ => false
  end.

(** [x in xs] for a list, tuple or set of strings. *)
Definition mem (x : pystr) (xs : list pystr) : bool :=
  existsb (str_eqb x) xs.

(** [c in s] for a single character [c]. *)
Definition has_char (c : N) (s : pystr) : bool :=
  existsb (N.eqb c) s.

(** [str.isspace] on one code point (CPython's [Py_UNICODE_ISSPACE]). *)
Definition isspace (c : N) : bool :=
  ((9 <=? c) && (c <=? 13)) || ((28 <=? c) && (c <=? 32))
  || (c =? 133) || (c =? 160) || (c =? 5760)
  || ((8192 <=? c) && (c <=? 8202))
  || (c =? 8232) || (c =? 8233) || (c =? 8239) || (c =? 8287)
  || (c =? 12288).

Fixpoint dropwhile (p : N -> bool) (s : pystr) : pystr :=
  match s with
  | [] => []
  | c :: s' => if p c then dropwhile p s' else s
  end.

Fixpoint takewhile (p : N -> bool) (s : pystr) : pystr :=
  match s with
  | [] => []
  | c :: s' => if p c then c :: takewhile p s' else []
  end.

(** [s.lstrip(chars)], [s.rstrip(chars)] and [s.strip()]. *)
Definition lstrip_chars (chars : pystr) (s : pystr) : pystr :=
  dropwhile (fun c => has_char c chars) s.

Definition rstrip_chars (chars : pystr) (s : pystr) : pystr :=
  rev (dropwhile (fun c => has_char c chars) (rev s)).

Definition strip (s : pystr) : pystr :=
  rev (dropwhile isspace (rev (dropwhile isspace s))).

(** [s.split()]: the maximal runs of non-whitespace characters.  [cur]
    holds the current run, reversed. *)
Fixpoint split_from (cur : pystr) (s : pystr) : list pystr :=
  match s with
  | [] => match cur with [] => [] | _ => [rev cur] end
  | c :: s' =>
      if isspace c
      then match cur with
           | [] => split_from [] s'
           | _ => rev cur :: split_from [] s'
           end
      else split_from (c :: cur) s'
  end.

Definition split_ws (s : pystr) : list pystr := split_from [] s.

(** [s.startswith(p)]. *)
Fixpoint startswith (p s : pystr) : bool :=
  match p, s with
  | [], _ => true
  | x :: p', y :: s' => N.eqb x y && startswith p' s'
  | _ :: _, [] => false
  end.

(** [p in s] for strings. *)
Fixpoint infix (p s : pystr) : bool :=
  match s with
  | [] => startswith p []
  | _ :: s' => startswith p s || infix p s'
  end.

Definition slash : N := 47.

(** [os.path.basename]: what follows the last slash. *)
Definition basename (p : pystr) : pystr :=
  rev (takewhile (fun c => negb (N.eqb c slash)) (rev p)).

(** [os.path.isabs]. *)
Definition isabs (p : pystr) : bool := startswith [slash] p.

(** [os.path.join(a, b)]. *)
Definition join (a b : pystr) : pystr :=
  if startswith [slash] b then b
  else match rev a with
       | [] => b
       | c :: _ => if N.eqb c slash then a ++ b else a ++ slash :: b
       end.

(** Truth value of a string: the empty string is false. *)
Definition nonempty (s : pystr) : bool :=
  match s with [] => false | _ => true end.

(** Truth value of an optional string ([None] and [''] are false). *)
Definition truthy (o : option pystr) : bool :=
  match o with Some s => nonempty s | None => false end.

Definition is_ascii (c : N) : bool := c <? 128.

Definition ascii_lower (c : N) : N :=
  if (65 <=? c) && (c <=? 90) then c + 32 else c.

End PyStr.
Export PyStr.

(* ===================================================================== *)
(** * Exceptions, host and world *)
(* ===================================================================== *)

(** The exception classes the program distinguishes; [RuntimeError]
    stands for any other subclass of [Exception]. *)
Inductive exn : Type :=
| OSError | FileNotFoundError | PermissionError | NotADirectoryError
| ValueError | TypeError | IndexError | UnboundLocalError | TimeoutExpired
| RecursionError | RuntimeError.

Definition is_OSError (e : exn) : bool :=
  match e with
  | OSError | FileNotFoundError | PermissionError | NotADirectoryError => true
  | _ => false
  end.

Definition is_PermissionError (e : exn) : bool :=
  match e with PermissionError => true | _ => false end.

Definition is_FileNotFoundError (e : exn) : bool :=
  match e with FileNotFoundError => true | _ => false end.

Definition is_ValueError (e : exn) : bool :=
  match e with ValueError => true | _ => false end.

Definition is_TimeoutExpired (e : exn) : bool :=
  match e with TimeoutExpired => true | _ => false end.

(** [except Exception]. *)
Definition is_Exception (e : exn) : bool := true.

Inductive res (A : Type) : Type :=
| Ret (a : A)
| Exc (e : exn).
Arguments Ret {A} a.
Arguments Exc {A} e.

(** How one round of a loop ends: it falls through to the next round, or
    the enclosing function returns. *)
Inductive flow (A : Type) : Type :=
| Continue
| Return (a : A).
Arguments Continue {A}.
Arguments Return {A} a.

(** [os.stat_result], the two fields that are read. *)
Record stat_result := { st_uid : Z; st_mode : Z }.

(** [subprocess.CompletedProcess]. *)
Record completed := { returncode : Z; stdout : pystr }.

(** What [DirEntry.is_dir(follow_symlinks=False)] looks at. *)
Inductive entry_kind : Type :=
| KDir            (* a real directory *)
| KFile           (* anything else that is not a symbolic link *)
| KSymlink        (* a symbolic link, whatever it points to *)
| KBroken (e : exn). (* [is_dir] raises *)

Record dir_entry := { de_name : pystr; de_kind : entry_kind }.

(** The answers of the operating system and of the interpreter library. *)
Record host := {
  realpath : pystr -> res pystr;          (* os.path.realpath *)
  exists_ : pystr -> bool;                (* os.path.exists *)
  isdir : pystr -> bool;                  (* os.path.isdir *)
  isfile : pystr -> bool;                 (* os.path.isfile *)
  access_R : pystr -> bool;               (* os.access(p, os.R_OK) *)
  access_X : pystr -> bool;               (* os.access(p, os.X_OK) *)
  getsize : pystr -> res Z;               (* os.path.getsize *)
  stat : pystr -> res stat_result;        (* os.stat *)
  getuid : Z;                             (* os.getuid() *)
  which : pystr -> option pystr;          (* shutil.which *)
  userhome : option pystr;                (* $HOME, else the pwd entry *)
  getcwd : res pystr;                     (* os.getcwd() *)
  listdir : pystr -> res (list pystr);    (* os.listdir *)
  scandir : pystr -> res (list dir_entry);(* os.scandir *)
  run : list pystr -> res completed;      (* subprocess.run(argv, ...) *)
  popen : list pystr -> res Z;            (* subprocess.Popen(argv, ...).pid *)
  clock : nat -> Z;                       (* k-th reading of time.time(), in microseconds *)
  unicode_lower : pystr -> pystr;         (* str.lower on a non-ASCII string *)
  percent_decode : pystr -> pystr         (* urllib.parse.unquote on a string with a percent sign *)
}.

(** One entry of [self.launched_processes]. *)
Record launched := { l_pid : Z; l_cmd : pystr; l_time : Z }.

(** The fields of the widget object that this part of the program uses. *)
Record widget := {
  editor_command : option pystr;          (* self.config.get('editor_command') *)
  current_directory : option pystr;       (* self.current_directory *)
  launched_processes : list launched
}.

(** Messages sent to [self.logger], without their timing suffix. *)
Inductive log_record : Type :=
| LogTrying (method_name : pystr)
| LogDetected (method_name : pystr) (directory : pystr)
| LogMethodFailed (method_name : pystr) (e : exn)
| LogNoDirectory
| LogDetectionError (e : exn)
| LogTryEditor (cmd : pystr) (dir : option pystr)
| LogInvalidCommand (cmd : pystr)
| LogInvalidDirectory (dir : option pystr)
| LogEditorOpened (cmd dir : pystr) (pid : Z)
| LogOpening (dir : pystr) (cmd : pystr) (pid : Z)
| LogLaunchError (e : exn)
| LogWhichTimeout (cmd : pystr)
| LogSearchTimeout
| LogSearchError (base_dir : pystr) (e : exn).

(** Externally visible actions. *)
Inductive action : Type :=
| ActRun (argv : list pystr)              (* subprocess.run *)
| ActPopen (argv : list pystr)            (* subprocess.Popen *)
| ActScandir (path : pystr)               (* os.scandir *)
| ActListdir (path : pystr)               (* os.listdir *)
| ActSaveConfig (cmd : option pystr)      (* self.save_config() *)
| ActDialog (title : pystr).              (* self.show_error_dialog *)

Record world := {
  w_host : host;
  w_ticks : nat;
  w_self : widget;
  w_log : list log_record;               (* newest first *)
  w_trace : list (nat * action)           (* newest first, each action with
                                             the number of clock readings
                                             made before it *)
}.

(* ===================================================================== *)
(** * The monad of the program *)
(* ===================================================================== *)

(** A computation reads and updates the world and either returns a value
    or raises; the world reached when an exception is raised is kept. *)
Definition M (A : Type) : Type := world -> res A * world.

Definition ret {A} (a : A) : M A := fun w => (Ret a, w).

Definition raise {A} (e : exn) : M A := fun w => (Exc e, w).

Definition bind {A B} (c : M A) (k : A -> M B) : M B :=
  fun w =>
    match c w with
    | (Ret a, w') => k a w'
    | (Exc e, w') => (Exc e, w')
    end.

Declare Scope py_scope.
Delimit Scope py_scope with py.
Notation "x <- c ;; k" := (bind c (fun x => k))
  (at level 61, c at next level, right associativity) : py_scope.
Notation "c ;;; k" := (bind c (fun _ => k))
  (at level 61, right associativity) : py_scope.
Local Open Scope py_scope.

(** [try: body  except <classes>: handler]. *)
Definition try_except {A} (body : M A) (classes : exn -> bool)
    (handler : exn -> M A) : M A :=
  fun w =>
    match body w with
    | (Exc e, w') => if classes e then handler e w' else (Exc e, w')
    | r => r
    end.

(** Lifting an answer of the host. *)
Definition ask {A} (f : host -> A) : M A := fun w => (Ret (f (w_host w)), w).

Definition ask_res {A} (f : host -> res A) : M A := fun w => (f (w_host w), w).

Definition set_ticks (n : nat) (w : world) : world :=
  {| w_host := w_host w; w_ticks := n; w_self := w_self w;
     w_log := w_log w; w_trace := w_trace w |}.

Definition set_self (s : widget) (w : world) : world :=
  {| w_host := w_host w; w_ticks := w_ticks w; w_self := s;
     w_log := w_log w; w_trace := w_trace w |}.

Definition add_log (r : log_record) (w : world) : world :=
  {| w_host := w_host w; w_ticks := w_ticks w; w_self := w_self w;
     w_log := r :: w_log w; w_trace := w_trace w |}.

Definition add_action (a : action) (w : world) : world :=
  {| w_host := w_host w; w_ticks := w_ticks w; w_self := w_self w;
     w_log := w_log w; w_trace := (w_ticks w, a) :: w_trace w |}.

(** [time.time()]: the next reading of the clock. *)
Definition time_time : M Z :=
  fun w => (Ret (clock (w_host w) (w_ticks w)), set_ticks (S (w_ticks w)) w).

(** [self.logger.<level>(...)]. *)
Definition logger (r : log_record) : M unit :=
  fun w => (Ret tt, add_log r w).

Definition get_self : M widget := fun w => (Ret (w_self w), w).

Definition put_self (s : widget) : M unit := fun w => (Ret tt, set_self s w).

Definition subprocess_run (argv : list pystr) : M completed :=
  fun w => (run (w_host w) argv, add_action (ActRun argv) w).

Definition subprocess_Popen (argv : list pystr) : M Z :=
  fun w => (popen (w_host w) argv, add_action (ActPopen argv) w).

Definition os_scandir (p : pystr) : M (list dir_entry) :=
  fun w => (scandir (w_host w) p, add_action (ActScandir p) w).

Definition os_listdir (p : pystr) : M (list pystr) :=
  fun w => (listdir (w_host w) p, add_action (ActListdir p) w).

(** [s.lower()]. *)
Definition lower (h : host) (s : pystr) : pystr :=
  if forallb is_ascii s then List.map ascii_lower s else unicode_lower h s.

(** [urllib.parse.unquote(s)]. *)
Definition unquote (h : host) (s : pystr) : pystr :=
  if has_char 37%N s then percent_decode h s else s.

(** [os.path.expanduser(p)] for [p] of the form [~] or [~/...], the only
    forms the program uses. *)
Definition expanduser (h : host) (p : pystr) : pystr :=
  match p with
  | 126%N :: rest =>
      match userhome h with
      | None => p
      | Some home =>
          match rstrip_chars [slash] home ++ rest with
          | [] => [slash]
          | r => r
          end
      end
  | _ => p
  end.

(* ===================================================================== *)
(** * The validators *)
(* ===================================================================== *)

Definition dangerous_commands : list pystr :=
  List.map u
    ["rm"; "sudo"; "su"; "chmod"; "chown"; "dd"; "mkfs"; "fdisk";
     "shutdown"; "reboot"; "halt"; "poweroff"; "init"; "killall";
     "pkill"; "kill"; "systemctl"; "service"; "bash"; "sh"; "zsh";
     "python"; "perl"; "ruby"; "node"; "wget"; "curl"; "nc"; "netcat"]%string.

Definition known_safe_editors : list pystr :=
  List.map u
    ["code"; "code-insiders"; "codium"; "vscodium";
     "vim"; "nvim"; "vi"; "nano"; "emacs"; "gedit"; "kate";
     "sublime_text"; "subl"; "atom"; "notepad++";
     "mousepad"; "pluma"; "xed"; "geany"; "brackets"]%string.

Definition system_dirs : list pystr :=
  List.map u ["/bin/"; "/sbin/"; "/usr/bin/"; "/usr/sbin/"; "/usr/local/bin/"]%string.

Definition max_editor_size : Z := 500 * 1024 * 1024.

(** Lines 246-252: the command that is looked at.  [cmd.split()[0]] raises
    [IndexError] on an empty list. *)
Definition command_token (cmd : pystr) : res pystr :=
  let cmd := strip cmd in
  if has_char 32%N cmd
  then match split_ws cmd with
       | t :: _ => Ret t
       | [] => Exc IndexError
       end
  else Ret cmd.

(** Lines 293-294 and 331-332. *)
Definition on_whitelist (h : host) (base_cmd real_path : pystr) : bool :=
  mem base_cmd known_safe_editors
  || existsb (fun editor => infix editor (lower h real_path)) known_safe_editors.

(** Lines 284-290 and 322-328: the file exists, is executable and is not
    larger than 500 MiB.  Returns whether the checks pass. *)
Definition executable_checks (real_path : pystr) : M bool :=
  isf <- ask (fun h => isfile h real_path) ;;
  acc <- ask (fun h => access_X h real_path) ;;
  if negb (isf && acc) then ret false
  else
    file_size <- ask_res (fun h => getsize h real_path) ;;
    if (file_size >? max_editor_size)%Z then ret false else ret true.

Definition validate_editor_command (cmd : option pystr) : M (option pystr) :=
  match cmd with
  | None => ret None
  | Some cmd =>
    if negb (nonempty cmd) then ret None
    else
      cmd <- (fun w => (command_token cmd, w)) ;;
      let base_cmd := basename cmd in
      if mem base_cmd dangerous_commands || startswith (u "rm") base_cmd
      then ret None
      else if isabs cmd then
        try_except
          (real_path <- ask_res (fun h => realpath h cmd) ;;
           ok <- executable_checks real_path ;;
           if negb ok then ret None
           else
             wl <- ask (fun h => on_whitelist h base_cmd real_path) ;;
             if wl then ret (Some real_path)
             else if existsb (fun dir_path => startswith dir_path real_path) system_dirs
             then ret None
             else
               stat_info <- ask_res (fun h => stat h real_path) ;;
               uid <- ask getuid ;;
               if (st_uid stat_info =? uid)%Z
               then if negb (Z.land (st_mode stat_info) 2 =? 0)%Z
                    then ret None
                    else ret (Some real_path)
               else ret None)
          (fun e => is_OSError e || is_ValueError e)
          (fun _ => ret None)
      else
        cmd_path <- ask (fun h => which h cmd) ;;
        if truthy cmd_path then
          match cmd_path with
          | None => ret None
          | Some cmd_path =>
            try_except
              (real_path <- ask_res (fun h => realpath h cmd_path) ;;
               ok <- executable_checks real_path ;;
               if negb ok then ret None
               else
                 wl <- ask (fun h => on_whitelist h base_cmd real_path) ;;
                 if wl then ret (Some real_path) else ret None)
              (fun e => is_OSError e || is_ValueError e)
              (fun _ => ret None)
          end
        else ret None
  end.

Definition forbidden_dirs : list pystr :=
  List.map u
    ["/root"; "/etc"; "/sys"; "/proc"; "/dev"; "/boot";
     "/var/log"; "/usr/sbin"; "/sbin"]%string.

(** Lines 371-378. *)
Definition allowed_prefixes (h : host) : list pystr :=
  expanduser h (u "~")
  :: List.map u ["/tmp/"; "/var/tmp/"; "/opt/"; "/usr/local/"; "/media/"; "/mnt/"]%string.

(** Lines 381-382. *)
Definition in_allowed_prefixes (h : host) (real_path : pystr) : bool :=
  existsb
    (fun prefix => startswith prefix real_path
                   || str_eqb real_path (rstrip_chars [slash] prefix))
    (allowed_prefixes h).

Definition validate_directory (path : option pystr) : M (option pystr) :=
  match path with
  | None => ret None
  | Some path =>
    if negb (nonempty path) then ret None
    else
      try_except
        (real_path <- ask_res (fun h => realpath h path) ;;
         isd <- ask (fun h => isdir h real_path) ;;
         if negb isd then ret None
         else
           acc <- ask (fun h => access_R h real_path) ;;
           if negb acc then ret None
           else if mem real_path forbidden_dirs then ret None
           else
             ok <- ask (fun h => in_allowed_prefixes h real_path) ;;
             if ok then ret (Some real_path) else ret None)
        (fun e => is_OSError e || is_ValueError e)
        (fun _ => ret None)
  end.


(* ===================================================================== *)
(** * Launching the editor *)
(* ===================================================================== *)

Definition append_launched (pid : Z) (cmd : pystr) (t : Z) : M unit :=
  self <- get_self ;;
  put_self {| editor_command := editor_command self;
              current_directory := current_directory self;
              launched_processes :=
                launched_processes self ++ [{| l_pid := pid; l_cmd := cmd; l_time := t |}] |}.

Definition set_editor_command (cmd : pystr) : M unit :=
  self <- get_self ;;
  put_self {| editor_command := Some cmd;
              current_directory := current_directory self;
              launched_processes := launched_processes self |}.

Definition set_current_directory (d : option pystr) : M unit :=
  self <- get_self ;;
  put_self {| editor_command := editor_command self;
              current_directory := d;
              launched_processes := launched_processes self |}.

(** [self.save_config()]: writes the settings file; its own errors are
    caught inside. *)
Definition save_config : M unit :=
  fun w => (Ret tt, add_action (ActSaveConfig (editor_command (w_self w))) w).

Definition show_error_dialog (title : pystr) : M unit :=
  fun w => (Ret tt, add_action (ActDialog title) w).

(** Lines 1881-1931. *)
Definition try_open_with_editor : M bool :=
  start_time <- time_time ;;
  try_except
    (self <- get_self ;;
     let editor_cmd :=
       match editor_command self with Some c => c | None => u "code" end in
     logger (LogTryEditor editor_cmd (current_directory self)) ;;;
     validated_cmd <- validate_editor_command (Some editor_cmd) ;;
     match validated_cmd with
     | None | Some [] =>
         logger (LogInvalidCommand editor_cmd) ;;; ret false
     | Some validated_cmd =>
         validated_dir <- validate_directory (current_directory self) ;;
         match validated_dir with
         | None | Some [] =>
             logger (LogInvalidDirectory (current_directory self)) ;;; ret false
         | Some validated_dir =>
             pid <- subprocess_Popen [validated_cmd; validated_dir] ;;
             t <- time_time ;;
             append_launched pid validated_cmd t ;;;
             t_end <- time_time ;;
             logger (LogEditorOpened validated_cmd validated_dir pid) ;;;
             ret true
         end
     end)
    is_Exception
    (fun e => logger (LogLaunchError e) ;;; ret false).

Definition vscode_commands (h : host) : list pystr :=
  List.map u
    ["code"; "code-insiders"; "codium"; "vscodium";
     "/usr/bin/code"; "/usr/local/bin/code"; "/snap/bin/code";
     "/var/lib/flatpak/app/com.visualstudio.code/current/active/export/bin/com.visualstudio.code";
     "/opt/visual-studio-code/bin/code"]%string
  ++ [expanduser h (u "~/.local/bin/code")].

(** Lines 1950-1994, one round of the loop. *)
Definition try_common_editor (cmd : pystr) : M (flow bool) :=
  try_except
    (present <-
       (if startswith [slash] cmd then
          isf <- ask (fun h => isfile h cmd) ;;
          acc <- ask (fun h => access_X h cmd) ;;
          ret (negb (negb isf || negb acc))
        else
          check_cmd <- subprocess_run [u "which"; cmd] ;;
          ret (returncode check_cmd =? 0)%Z) ;;
     if negb present then ret Continue
     else
       self <- get_self ;;
       match current_directory self with
       | None => raise TypeError
       | Some dir =>
           pid <- subprocess_Popen [cmd; dir] ;;
           t <- time_time ;;
           append_launched pid cmd t ;;;
           logger (LogOpening dir cmd pid) ;;;
           set_editor_command cmd ;;;
           save_config ;;;
           ret (Return true)
       end)
    is_Exception
    (fun e =>
       if is_TimeoutExpired e then logger (LogWhichTimeout cmd) ;;; ret Continue
       else ret Continue).

Fixpoint try_common_editors_loop (cmds : list pystr) : M bool :=
  match cmds with
  | [] => ret false
  | cmd :: cmds' =>
      r <- try_common_editor cmd ;;
      match r with
      | Return b => ret b
      | Continue => try_common_editors_loop cmds'
      end
  end.

(** Lines 1933-1996. *)
Definition try_open_with_common_editors : M bool :=
  cmds <- ask vscode_commands ;;
  try_common_editors_loop cmds.

(** Lines 1294-1300. *)
Definition on_favorite_clicked (folder_path : pystr) : M unit :=
  ex <- ask (fun h => exists_ h folder_path) ;;
  if ex then
    self <- get_self ;;
    let temp_dir := current_directory self in
    set_current_directory (Some folder_path) ;;;
    try_open_with_editor ;;;
    set_current_directory temp_dir
  else ret tt.

(** Lines 1844-1867. *)
Definition open_editor_callback : M unit :=
  self <- get_self ;;
  ex <- (match current_directory self with
         | None | Some [] => ret false
         | Some d => ask (fun h => exists_ h d)
         end) ;;
  if ex then
    success <- try_open_with_editor ;;
    success <- (if negb success then try_open_with_common_editors else ret success) ;;
    if negb success then show_error_dialog (u "Editor no encontrado") else ret tt
  else show_error_dialog (u "No se detect" ++ [243%N] ++ u " carpeta").

(* ===================================================================== *)
(** * Text processing used by the detection strategies *)
(* ===================================================================== *)

Module PyText.

Local Open Scope N_scope.

(** [s.split(sep)] for a one-character separator; [cur] is the current
    piece, reversed. *)
Fixpoint split_on_from (sep : N) (cur : pystr) (s : pystr) : list pystr :=
  match s with
  | [] => [rev cur]
  | c :: s' =>
      if N.eqb c sep then rev cur :: split_on_from sep [] s'
      else split_on_from sep (c :: cur) s'
  end.

Definition split_on (sep : N) (s : pystr) : list pystr := split_on_from sep [] s.

(** [s.replace(sub, '')] for a non-empty [sub]: [skip] characters of a
    matched occurrence remain to be dropped. *)
Fixpoint remove_from (sub : pystr) (skip : nat) (s : pystr) : pystr :=
  match s with
  | [] => []
  | c :: s' =>
      match skip with
      | S k => remove_from sub k s'
      | O => if startswith sub s then remove_from sub (List.length sub - 1) s'
             else c :: remove_from sub 0 s'
      end
  end.

Definition remove_all (sub s : pystr) : pystr := remove_from sub 0 s.

Definition apostrophe : N := 39.
Definition dquote : N := 34.

Definition is_quote (c : N) : bool := N.eqb c apostrophe || N.eqb c dquote.

Definition no_space (s : pystr) : bool := forallb (fun c => negb (isspace c)) s.

(** Line 2079, group 1 of [re.search] for an apostrophe, then [file://]
    and one or more characters other than an apostrophe (the group), then
    an apostrophe: the leftmost place where this is found. *)
Fixpoint search_file_uri (s : pystr) : option pystr :=
  match s with
  | [] => None
  | _ :: s' =>
      if startswith (apostrophe :: u "file://") s then
        let body := skipn 7 s' in
        let chars := takewhile (fun c => negb (N.eqb c apostrophe)) body in
        if nonempty chars && startswith [apostrophe] (skipn (List.length chars) body)
        then Some (u "file://" ++ chars)
        else search_file_uri s'
      else search_file_uri s'
  end.

(** [re.findall] for a pattern made of a quote (single or double), a
    group that matches only text without quotes, and a quote: the text
    between a quote and the next quote, whenever [ok] accepts it; matches
    do not overlap. *)
Fixpoint findall_quoted (ok : pystr -> bool) (skip : nat) (s : pystr) : list pystr :=
  match s with
  | [] => []
  | c :: s' =>
      match skip with
      | S k => findall_quoted ok k s'
      | O =>
          if is_quote c then
            let content := takewhile (fun x => negb (is_quote x)) s' in
            if nonempty (skipn (List.length content) s') && ok content
            then content :: findall_quoted ok (S (List.length content)) s'
            else findall_quoted ok 0 s'
          else findall_quoted ok 0 s'
      end
  end.

(** Line 2156: the quoted texts that contain [file://]. *)
Definition findall_file_uris (s : pystr) : list pystr :=
  findall_quoted (fun content => infix (u "file://") content) 0 s.

(** Line 2165: the quoted texts that have a slash and end in a non-empty
    last component without whitespace (the group is any text followed by
    one or more times a slash and a run of characters other than slash,
    quote and whitespace). *)
Definition findall_quoted_paths (s : pystr) : list pystr :=
  findall_quoted
    (fun content => has_char slash content
                    && nonempty (basename content)
                    && no_space (basename content)) 0 s.

(** Line 2230, [re.findall] for a slash followed by one or more
    characters other than whitespace (the lazy group that follows always
    matches empty): in each run of non-whitespace characters, what starts
    at its first slash, when at least one character follows that slash. *)
Definition findall_paths (s : pystr) : list pystr :=
  flat_map
    (fun word =>
       let tail := dropwhile (fun c => negb (N.eqb c slash)) word in
       if (2 <=? List.length tail)%nat then [tail] else [])
    (split_ws s).

End PyText.
Export PyText.

(* ===================================================================== *)
(** * The bounded recursive folder search *)
(* ===================================================================== *)

(** Computations that may also run out of fuel ([None]). *)
Definition PM (A : Type) : Type := world -> option (res A * world).

Definition lift {A} (c : M A) : PM A := fun w => Some (c w).

Definition pret {A} (a : A) : PM A := fun w => Some (Ret a, w).

Definition pbind {A B} (c : PM A) (k : A -> PM B) : PM B :=
  fun w =>
    match c w with
    | None => None
    | Some (Ret a, w') => k a w'
    | Some (Exc e, w') => Some (Exc e, w')
    end.

Definition ptry_except {A} (body : PM A) (classes : exn -> bool)
    (handler : exn -> PM A) : PM A :=
  fun w =>
    match body w with
    | Some (Exc e, w') => if classes e then handler e w' else Some (Exc e, w')
    | r => r
    end.

Definition excluded_dirs : list pystr :=
  List.map u
    ["node_modules"; "__pycache__"; ".git"; ".svn"; ".hg";
     ".cache"; ".config"; ".local"; ".npm"; ".cargo"; ".rustup";
     "venv"; "env"; ".venv"; ".env"; "virtualenv";
     "site-packages"; "dist"; "build"; ".tox";
     "snap"; "flatpak"; ".wine"; ".steam";
     ".mozilla"; ".thunderbird"; ".var"]%string.

(** Two seconds, in the unit of the clock. *)
Definition search_budget : Z := 2000000.

(** [entry.is_dir(follow_symlinks=False)]. *)
Definition entry_is_dir (e : dir_entry) : M bool :=
  match de_kind e with
  | KDir => ret true
  | KFile | KSymlink => ret false
  | KBroken x => raise x
  end.

Section Scan.

(** The search of a subdirectory, as the enclosing call makes it. *)
Variable descend : pystr -> PM (option pystr).

Variables (base_dir target_name : pystr) (max_depth current_depth : Z)
          (start_time : Z).

(** Lines 2352-2376: what is done with one entry. *)
Definition scan_entry (entry : dir_entry) : PM (flow (option pystr)) :=
  ptry_except
    (pbind (lift (entry_is_dir entry)) (fun is_dir =>
     if negb is_dir then pret Continue
     else if startswith (u ".") (de_name entry)
             || mem (de_name entry) excluded_dirs
     then pret Continue
     else
       pbind (lift (ask (fun h =>
                str_eqb (lower h (de_name entry)) (lower h target_name))))
             (fun same =>
       if same then pret (Return (Some (join base_dir (de_name entry))))
       else if (current_depth <? max_depth - 1)%Z then
         pbind (descend (join base_dir (de_name entry))) (fun result =>
         if truthy result then pret (Return result) else pret Continue)
       else pret Continue)))
    is_OSError
    (fun _ => pret Continue).

(** Lines 2347-2376: the loop over the entries. *)
Fixpoint scan (entries : list dir_entry) : PM (option pystr) :=
  match entries with
  | [] => pret None
  | entry :: entries' =>
      pbind (lift time_time) (fun now =>
      if (now - start_time >? search_budget)%Z then pret None
      else
        pbind (scan_entry entry) (fun round =>
        match round with
        | Return result => pret result
        | Continue => scan entries'
        end))
  end.

End Scan.

(** Lines 2320-2381.  [fuel] bounds the nesting of calls. *)
Fixpoint recursive_folder_search_fuel (fuel : nat)
    (base_dir target_name : pystr) (max_depth current_depth : Z)
    (start_time : option Z) {struct fuel} : PM (option pystr) :=
  match fuel with
  | O => fun _ => None
  | S fuel' =>
    pbind (match start_time with
           | None => lift time_time
           | Some t => pret t
           end) (fun start_time =>
    pbind (lift time_time) (fun now =>
    if (now - start_time >? search_budget)%Z then
      pbind (lift (logger LogSearchTimeout)) (fun _ => pret None)
    else if (current_depth >=? max_depth)%Z then pret None
    else
      ptry_except
        (pbind (lift (os_scandir base_dir)) (fun entries =>
         scan (fun sub =>
                 recursive_folder_search_fuel fuel' sub target_name
                   max_depth (current_depth + 1) (Some start_time))
              base_dir target_name max_depth current_depth start_time
              entries))
        is_OSError
        (fun e => pbind (lift (logger (LogSearchError base_dir e)))
                        (fun _ => pret None))))
  end.

(** The fuel that the depth arguments call for. *)
Definition search_fuel (max_depth current_depth : Z) : nat :=
  S (Z.to_nat (max_depth - current_depth)).

(** The search as the program calls it.  The second branch is never
    taken ([recursive_folder_search_fuel] does not run out of
    [search_fuel], see the termination theorem). *)
Definition recursive_folder_search (base_dir target_name : pystr)
    (max_depth current_depth : Z) (start_time : option Z) : M (option pystr) :=
  fun w =>
    match recursive_folder_search_fuel (search_fuel max_depth current_depth)
            base_dir target_name max_depth current_depth start_time w with
    | Some r => r
    | None => (Exc RecursionError, w)
    end.

(* ===================================================================== *)
(** * The detection strategies *)
(* ===================================================================== *)

(** [for x in xs: body(x)], ending in [otherwise] when no round
    returns. *)
Fixpoint first_return {A B} (body : A -> M (flow B)) (xs : list A)
    (otherwise : M B) : M B :=
  match xs with
  | [] => otherwise
  | x :: xs' =>
      r <- body x ;;
      match r with
      | Return b => ret b
      | Continue => first_return body xs' otherwise
      end
  end.

Definition exists_dir (p : pystr) : M bool :=
  ask (fun h => exists_ h p && isdir h p).

(** Lines 2284-2318. *)
Definition search_folder_by_name (folder_name : pystr) : M (option pystr) :=
  search_locations <- ask (fun h =>
    List.map (expanduser h)
      (List.map u ["~"; "~/Documents"; "~/Documentos"; "~/Desktop";
                   "~/Escritorio"; "~/Downloads"; "~/Descargas"]%string)) ;;
  first_return
    (fun base_dir =>
       ex <- ask (fun h => exists_ h base_dir) ;;
       if ex then
         try_except
           (items <- os_listdir base_dir ;;
            first_return
              (fun item =>
                 same <- ask (fun h => str_eqb (lower h item) (lower h folder_name)) ;;
                 if same then
                   isd <- ask (fun h => isdir h (join base_dir item)) ;;
                   if isd then ret (Return (Return (Some (join base_dir item))))
                   else ret Continue
                 else ret Continue)
              items (ret Continue))
           is_PermissionError
           (fun _ => ret Continue)
       else ret Continue)
    search_locations
    (first_return
       (fun base_dir =>
          ex <- ask (fun h => exists_ h base_dir) ;;
          if ex then
            try_except
              (found <- recursive_folder_search base_dir folder_name 2 0 None ;;
               if truthy found then ret (Return found) else ret Continue)
              is_Exception
              (fun _ => ret Continue)
          else ret Continue)
       (firstn 3 search_locations)
       (ret None)).

(** Lines 2213-2221: branding prefixes and leading glyphs are removed. *)
Definition prefixes_to_remove : list pystr :=
  List.map u ["Files"; "Archivos"; "File Manager"; "Gestor de archivos"]%string.

Definition remove_prefix (title prefix : pystr) : pystr :=
  if startswith prefix title then
    let title := strip (skipn (List.length prefix) title) in
    if startswith (u "-") title then strip (skipn 1 title) else title
  else title.

(** The eight-spoked asterisk that Nautilus puts in some titles. *)
Definition asterisk : N := 10035.

Definition clean_title (title : pystr) : pystr :=
  let title := fold_left remove_prefix prefixes_to_remove (strip title) in
  strip (lstrip_chars [asterisk; 32%N] title).

(** Lines 2241-2250, in the order of the dictionary. *)
Definition folder_mapping : list (pystr * pystr) :=
  [ (u "Documents", u "Documents"); (u "Documentos", u "Documents");
    (u "Downloads", u "Downloads"); (u "Descargas", u "Downloads");
    (u "Pictures", u "Pictures"); (u "Im" ++ 225%N :: u "genes", u "Pictures");
    (u "Music", u "Music"); (u "M" ++ 250%N :: u "sica", u "Music");
    (u "Videos", u "Videos"); (u "V" ++ 237%N :: u "deos", u "Videos");
    (u "Desktop", u "Desktop"); (u "Escritorio", u "Desktop");
    (u "Public", u "Public"); (u "P" ++ 250%N :: u "blico", u "Public");
    (u "Templates", u "Templates"); (u "Plantillas", u "Templates") ].

(** One of the two loops over [folder_mapping]: the first display name
    that [matches] and whose folder exists under [home]. *)
Definition mapped_folder (matches : host -> pystr -> bool) (home : pystr)
    (otherwise : M (option pystr)) : M (option pystr) :=
  first_return
    (fun entry : pystr * pystr =>
       m <- ask (fun h => matches h (fst entry)) ;;
       if m then
         ex <- ask (fun h => exists_ h (join home (snd entry))) ;;
         if ex then ret (Return (Some (join home (snd entry)))) else ret Continue
       else ret Continue)
    folder_mapping otherwise.

(** Lines 2203-2282. *)
Definition extract_directory_from_title (title : pystr) : M (option pystr) :=
  if negb (nonempty title) then ret None
  else
    let original_title := title in
    let title := clean_title title in
    starts_ok <- (if startswith [slash] title
                  then ask (fun h => exists_ h title) else ret false) ;;
    if starts_ok then ret (Some title)
    else
      first_return
        (fun m => ex <- ask (fun h => exists_ h m) ;;
                  if ex then ret (Return (Some m)) else ret Continue)
        (findall_paths original_title)
        (if nonempty title then
           home <- ask (fun h => expanduser h (u "~")) ;;
           special <- ask (fun h =>
             mem (lower h title)
                 (List.map u ["carpeta personal"; "home"; "personal folder"]%string)) ;;
           if special then ret (Some home)
           else
             mapped_folder
               (fun h display_name => str_eqb (lower h title) (lower h display_name))
               home
               (mapped_folder
                  (fun h display_name => infix (lower h display_name) (lower h title))
                  home
                  (direct <- (if negb (has_char slash title)
                              then ask (fun h => exists_ h (join home title))
                              else ret false) ;;
                   if direct then ret (Some (join home title))
                   else if negb (has_char slash title)
                           && negb (mem title (List.map u ["org.gnome.Nautilus"; "Nautilus"]%string))
                   then
                     found_path <- search_folder_by_name title ;;
                     if truthy found_path then ret found_path else ret None
                   else ret None))
         else ret None).

(** Lines 2140-2173. *)
Definition get_directory_from_window_properties (window_id : pystr)
  : M (option pystr) :=
  try_except
    (prop_result <- subprocess_run
       [u "xprop"; u "-id"; window_id; u "WM_NAME"; u "_NET_WM_NAME"] ;;
     if (returncode prop_result =? 0)%Z then
       let output := stdout prop_result in
       first_return
         (fun path =>
            if infix (u "file://") path then
              clean_path <- ask (fun h => unquote h (remove_all (u "file://") path)) ;;
              ok <- exists_dir clean_path ;;
              if ok then ret (Return (Some clean_path)) else ret Continue
            else ret Continue)
         (findall_file_uris output)
         (first_return
            (fun path =>
               ok <- exists_dir path ;;
               if ok then ret (Return (Some path)) else ret Continue)
            (findall_quoted_paths output)
            (ret None))
     else ret None)
    is_Exception
    (fun _ => ret None).

(** Lines 2028-2089. *)
Definition get_directory_from_dbus : M (option pystr) :=
  try_except
    (result <- subprocess_run [u "xdotool"; u "search"; u "--class"; u "nautilus"] ;;
     if negb (returncode result =? 0)%Z || negb (nonempty (strip (stdout result)))
     then ret None
     else
       focused_result <- subprocess_run [u "xdotool"; u "getwindowfocus"] ;;
       if negb (returncode focused_result =? 0)%Z then ret None
       else
         let focused_id := strip (stdout focused_result) in
         let window_ids := split_on 10%N (strip (stdout result)) in
         if negb (mem focused_id window_ids) then ret None
         else
           dbus_result <- subprocess_run
             [u "gdbus"; u "call"; u "--session";
              u "--dest"; u "org.gnome.Nautilus";
              u "--object-path"; u "/org/gnome/Nautilus/window/1";
              u "--method"; u "org.freedesktop.DBus.Properties.Get";
              u "org.gnome.Nautilus.Window"; u "location"] ;;
           if (returncode dbus_result =? 0)%Z && nonempty (stdout dbus_result) then
             let output := strip (stdout dbus_result) in
             if infix (u "file://") output then
               match search_file_uri output with
               | Some uri =>
                   path <- ask (fun h => unquote h (remove_all (u "file://") uri)) ;;
                   ok <- exists_dir path ;;
                   if ok then ret (Some path) else ret None
               | None => ret None
               end
             else ret None
           else ret None)
    is_Exception
    (fun _ => ret None).

Definition nautilus_words : list pystr :=
  [ u "documents"; u "documentos"; u "downloads"; u "descargas";
    u "pictures"; u "im" ++ 225%N :: u "genes";
    u "music"; u "m" ++ 250%N :: u "sica";
    u "videos"; u "v" ++ 237%N :: u "deos";
    u "desktop"; u "escritorio" ].

(** Lines 2116-2121. *)
Definition looks_like_nautilus (h : host) (title : pystr) : bool :=
  infix (u "nautilus") (lower h title)
  || startswith [slash] title
  || existsb (fun folder => infix folder (lower h title)) nautilus_words
  || ((3 <? List.length title)%nat
      && negb (mem title [asterisk :: u " Carpeta problema"])).

(** Lines 2091-2137.  When the title query fails, [is_nautilus] is read
    before it was ever assigned. *)
Definition get_directory_from_active_nautilus_window : M (option pystr) :=
  try_except
    (result <- subprocess_run [u "xdotool"; u "getactivewindow"] ;;
     if (returncode result =? 0)%Z && nonempty (strip (stdout result)) then
       let active_window_id := strip (stdout result) in
       title_result <- subprocess_run [u "xdotool"; u "getwindowname"; active_window_id] ;;
       if (returncode title_result =? 0)%Z then
         let title := strip (stdout title_result) in
         is_nautilus <- ask (fun h => looks_like_nautilus h title) ;;
         if is_nautilus then
           directory <- extract_directory_from_title title ;;
           if truthy directory then ret directory
           else
             directory <- get_directory_from_window_properties active_window_id ;;
             if truthy directory then ret directory else ret None
         else ret None
       else raise UnboundLocalError
     else ret None)
    is_Exception
    (fun _ => ret None).

(** Lines 2176-2201. *)
Definition get_directory_from_fallback : M (option pystr) :=
  try_except
    (cwd <- ask_res getcwd ;;
     ok <- exists_dir cwd ;;
     if ok then ret (Some cwd)
     else
       home <- ask (fun h => expanduser h (u "~")) ;;
       first_return
         (fun directory =>
            ok <- exists_dir directory ;;
            if ok then ret (Return (Some directory)) else ret Continue)
         [ join home (u "Desktop"); join home (u "Escritorio");
           join home (u "Documents"); join home (u "Documentos"); home ]
         (ret None))
    is_Exception
    (fun _ => ret None).

(* ===================================================================== *)
(** * The resolver *)
(* ===================================================================== *)

(** What one strategy led to. *)
Inductive outcome : Type :=
| Found (path : pystr)   (* accepted as the answer *)
| NotFound               (* returned nothing, or a path that does not exist *)
| Error (e : exn).       (* raised *)

Record attempt := { a_method : pystr; a_outcome : outcome }.

(** Lines 2013-2022: one method is tried.  [Found] is the [return]
    inside the loop; the other two outcomes go on with the next method. *)
Definition try_method (method_name : pystr) (method : M (option pystr))
  : M outcome :=
  try_except
    (logger (LogTrying method_name) ;;;
     directory <- method ;;
     match directory with
     | Some (c :: s) =>
         ex <- ask (fun h => exists_ h (c :: s)) ;;
         if ex then
           t <- time_time ;;
           logger (LogDetected method_name (c :: s)) ;;;
           ret (Found (c :: s))
         else ret NotFound
     | _ => ret NotFound
     end)
    is_Exception
    (fun e => logger (LogMethodFailed method_name e) ;;; ret (Error e)).

(** Lines 2012-2026, the loop and what follows it.  Besides the
    directory, the model returns the list of attempts made, in order: a
    record kept for the statements below, which the program only writes
    to its log. *)
Fixpoint run_methods (start_time : Z) (methods : list (pystr * M (option pystr)))
  : M (option pystr * list attempt) :=
  match methods with
  | [] =>
      t <- time_time ;;
      logger LogNoDirectory ;;;
      ret (None, [])
  | (method_name, method) :: methods' =>
      o <- try_method method_name method ;;
      let a := {| a_method := method_name; a_outcome := o |} in
      match o with
      | Found directory => ret (Some directory, [a])
      | _ =>
          r <- run_methods start_time methods' ;;
          ret (fst r, a :: snd r)
      end
  end.

Section Resolver.

(** The three bound methods of the widget. *)
Variables dbus active_window fallback : M (option pystr).

Definition detection_methods : list (pystr * M (option pystr)) :=
  [ (u "DBus", dbus);
    (u "Active Window", active_window);
    (u "Fallback", fallback) ].

(** Lines 2003-2026, with the record of attempts. *)
Definition resolve_traced : M (option pystr * list attempt) :=
  start_time <- time_time ;;
  run_methods start_time detection_methods.

Definition resolve : M (option pystr) :=
  r <- resolve_traced ;; ret (fst r).

End Resolver.

Definition get_nautilus_directory_multiple_methods : M (option pystr) :=
  resolve get_directory_from_dbus
          get_directory_from_active_nautilus_window
          get_directory_from_fallback.

(** Lines 1814-1842 followed by the callback that the worker schedules:
    [_open_editor_callback] after a detection that did not raise,
    [_show_error_callback] otherwise. *)
Definition on_button_clicked : M unit :=
  detected <- try_except
    (detected_dir <- get_nautilus_directory_multiple_methods ;;
     ex <- (match detected_dir with
            | Some (c :: s) => ask (fun h => exists_ h (c :: s))
            | _ => ret false
            end) ;;
     detected_dir <- (if negb ex then get_directory_from_fallback
                      else ret detected_dir) ;;
     set_current_directory detected_dir ;;;
     ret true)
    is_Exception
    (fun e => logger (LogDetectionError e) ;;; ret false) ;;
  if detected then open_editor_callback
  else show_error_dialog (u "Error de detecci" ++ [243%N] ++ u "n").
(** ** The claim's reading of the allow-list

    This definition follows the specification's words, "is itself, or is
    a descendant of, one of a fixed allow-list of root locations"; it is
    what [in_allowed_prefixes] above is compared with. *)
Definition is_self_or_descendant (root p : pystr) : bool :=
  str_eqb p root
  || startswith (if str_eqb root [slash] then root else root ++ [slash]) p.

Definition allow_list_roots (h : host) : list pystr :=
  expanduser h (u "~")
  :: List.map u ["/tmp"; "/var/tmp"; "/opt"; "/usr/local"; "/media"; "/mnt"]%string.

Definition under_allow_list_root (h : host) (p : pystr) : bool :=
  existsb (fun root => is_self_or_descendant root p) (allow_list_roots h).

(** ** Notions used in the statements about the folder search *)

(** [real_subdir h n base p]: [p] is reached from [base] by going down
    [n] times into a listed entry that is a real directory, not a
    symbolic link. *)
Inductive real_subdir (h : host) : nat -> pystr -> pystr -> Prop :=
| rs_here (base : pystr) : real_subdir h 0 base base
| rs_down (n : nat) (base : pystr) (es : list dir_entry) (e : dir_entry)
    (p : pystr) :
    scandir h base = Ret es -> In e es -> de_kind e = KDir ->
    real_subdir h n (join base (de_name e)) p ->
    real_subdir h (S n) base p.

(** Readings of the clock never go back. *)
Definition monotone_clock (h : host) : Prop :=
  forall i j : nat, (i <= j)%nat -> (clock h i <= clock h j)%Z.

(* ===================================================================== *)
(** * A concrete desktop, for running the program *)
(* ===================================================================== *)

Module Desk.

Definition dirs : list pystr :=
  List.map u
    ["/"; "/etc"; "/home"; "/home/al"; "/home/al/Documents";
     "/home/al/Projects"; "/home/al/Projects/App"; "/home/alice";
     "/tmp"; "/var/log"; "/var/log/nginx"; "/usr/bin"; "/root";
     "/root/work"]%string.

Definition files : list pystr :=
  List.map u
    ["/usr/bin/code"; "/usr/bin/rm"; "/usr/bin/bash"; "/etc/hostname"]%string.

(** Symbolic links and what they resolve to. *)
Definition links : list (pystr * pystr) :=
  [(u "/home/al/settings", u "/etc")].

(** Names found on the executable search path. *)
Definition on_path : list (pystr * pystr) :=
  [(u "code", u "/usr/bin/code"); (u "rm", u "/usr/bin/rm");
   (u "bash", u "/usr/bin/bash")].

Fixpoint assoc {B} (k : pystr) (l : list (pystr * B)) : option B :=
  match l with
  | [] => None
  | (k', v) :: l' => if str_eqb k k' then Some v else assoc k l'
  end.

Definition resolve (p : pystr) : pystr :=
  match assoc p links with Some t => t | None => p end.

(** Directory listings: name and kind of each entry. *)
Definition listings : list (pystr * list dir_entry) :=
  [(u "/home/al",
    [ {| de_name := u ".git"; de_kind := KDir |};
      {| de_name := u "notes.txt"; de_kind := KFile |};
      {| de_name := u "settings"; de_kind := KSymlink |};
      {| de_name := u "Documents"; de_kind := KDir |};
      {| de_name := u "Projects"; de_kind := KDir |} ]);
   (u "/home/al/Documents", []);
   (u "/home/al/Projects",
    [ {| de_name := u "node_modules"; de_kind := KDir |};
      {| de_name := u "App"; de_kind := KDir |} ]);
   (u "/home/al/Projects/App",
    [ {| de_name := u "deep"; de_kind := KDir |} ])].

(** A desktop whose child processes answer as [answers] says and whose
    invoking user's home directory is [home]. *)
Definition desk (home : pystr) (answers : list pystr -> res completed) : host :=
  {| realpath := fun p => Ret (resolve p);
     exists_ := fun p => mem (resolve p) dirs || mem (resolve p) files;
     isdir := fun p => mem (resolve p) dirs;
     isfile := fun p => mem (resolve p) files;
     access_R := fun p => mem (resolve p) dirs || mem (resolve p) files;
     access_X := fun p => mem (resolve p) dirs || mem (resolve p) files;
     getsize := fun _ => Ret 4096%Z;
     stat := fun _ => Ret {| st_uid := 0; st_mode := 493 |};
     getuid := 1000%Z;
     which := fun c => assoc c on_path;
     userhome := Some home;
     getcwd := Ret home;
     listdir := fun p =>
       match assoc p listings with
       | Some es => Ret (List.map de_name es)
       | None => Exc FileNotFoundError
       end;
     scandir := fun p =>
       match assoc p listings with
       | Some es => Ret es
       | None => Exc FileNotFoundError
       end;
     run := answers;
     popen := fun _ => Ret 4242%Z;
     clock := fun k => (1000 * Z.of_nat k)%Z;
     unicode_lower := fun s => s;
     percent_decode := fun s => s |}.

(** No helper tool is installed. *)
Definition no_tools (argv : list pystr) : res completed := Exc FileNotFoundError.

Fixpoint argv_eqb (a b : list pystr) : bool :=
  match a, b with
  | [], [] => true
  | x :: a', y :: b' => str_eqb x y && argv_eqb a' b'
  | _, _ => false
  end.

(** Child processes answer from a table; a tool that is not in the table
    is not installed. *)
Fixpoint answer_from (table : list (list pystr * completed)) (argv : list pystr)
  : res completed :=
  match table with
  | [] => Exc FileNotFoundError
  | (a, c) :: table' => if argv_eqb a argv then Ret c else answer_from table' argv
  end.

Definition line (s : pystr) : pystr := s ++ [10%N].

Definition gdbus_location : list pystr :=
  [u "gdbus"; u "call"; u "--session";
   u "--dest"; u "org.gnome.Nautilus";
   u "--object-path"; u "/org/gnome/Nautilus/window/1";
   u "--method"; u "org.freedesktop.DBus.Properties.Get";
   u "org.gnome.Nautilus.Window"; u "location"].

(** A focused Nautilus window that shows [uri]. *)
Definition nautilus_showing (uri : pystr) : list (list pystr * completed) :=
  [ ([u "xdotool"; u "search"; u "--class"; u "nautilus"],
     {| returncode := 0; stdout := line (u "123") |});
    ([u "xdotool"; u "getwindowfocus"],
     {| returncode := 0; stdout := line (u "123") |});
    (gdbus_location,
     {| returncode := 0;
        stdout := line (u "(<'" ++ uri ++ u "'>,)") |});
    ([u "xdotool"; u "getactivewindow"],
     {| returncode := 0; stdout := line (u "123") |});
    ([u "xdotool"; u "getwindowname"; u "123"],
     {| returncode := 0; stdout := line (u "etc") |});
    ([u "which"; u "code"],
     {| returncode := 0; stdout := line (u "/usr/bin/code") |}) ].

(** No Nautilus window; the active window has the title [title]. *)
Definition window_titled (title : pystr) : list (list pystr * completed) :=
  [ ([u "xdotool"; u "search"; u "--class"; u "nautilus"],
     {| returncode := 1; stdout := [] |});
    ([u "xdotool"; u "getactivewindow"],
     {| returncode := 0; stdout := line (u "456") |});
    ([u "xdotool"; u "getwindowname"; u "456"],
     {| returncode := 0; stdout := line title |});
    ([u "which"; u "code"],
     {| returncode := 0; stdout := line (u "/usr/bin/code") |}) ].

Definition fresh (h : host) (cmd dir : option pystr) : world :=
  {| w_host := h; w_ticks := 0;
     w_self := {| editor_command := cmd; current_directory := dir;
                  launched_processes := [] |};
     w_log := []; w_trace := [] |}.

(** Al's desktop without helper tools, editor setting [code]. *)
Definition al : world :=
  fresh (desk (u "/home/al") no_tools) (Some (u "code")) None.

(** Al browses [/etc] in Nautilus. *)
Definition al_browsing_etc : world :=
  fresh (desk (u "/home/al") (answer_from (nautilus_showing (u "file:///etc"))))
        (Some (u "code")) None.

(** Al has a window whose title is the path of a file. *)
Definition al_viewing_file : world :=
  fresh (desk (u "/home/al") (answer_from (window_titled (u "/etc/hostname"))))
        (Some (u "code")) None.

End Desk.

(* ===================================================================== *)
(** * Notions used in the further statements *)
(* ===================================================================== *)

(** The titles of the error dialogs shown so far, newest first. *)
Definition dialogs (w : world) : list pystr :=
  flat_map (fun ka => match snd ka with ActDialog t => [t] | _ => [] end)
           (w_trace w).

(** The processes the widget has started and remembers. *)
Definition launched_of (w : world) : list launched :=
  launched_processes (w_self w).

(** The host raises only [OSError] and [ValueError] from the file calls
    that the validators make. *)
Definition file_errors_only (h : host) : Prop :=
  (forall p e, realpath h p = Exc e -> is_OSError e || is_ValueError e = true)
  /\ (forall p e, getsize h p = Exc e -> is_OSError e || is_ValueError e = true)
  /\ (forall p e, stat h p = Exc e -> is_OSError e || is_ValueError e = true).

(* ===================================================================== *)
(** * Strings: basic facts *)
(* ===================================================================== *)

Lemma str_eqb_eq (a b : pystr) : str_eqb a b = true <-> a = b.
Proof.
  revert b; induction a as [|x a IH]; intros [|y b]; simpl;
    try (split; intro; congruence).
  rewrite andb_true_iff, N.eqb_eq, IH.
  split; [intros [-> ->]; reflexivity | intro H; inversion H; auto].
Qed.

Lemma str_eqb_refl (a : pystr) : str_eqb a a = true.
Proof. apply str_eqb_eq; reflexivity. Qed.

Lemma mem_In (x : pystr) (xs : list pystr) : mem x xs = true <-> In x xs.
Proof.
  unfold mem. rewrite existsb_exists. split.
  - intros [y [Hy He]]. apply str_eqb_eq in He. subst; auto.
  - intro H. exists x. split; [auto | apply str_eqb_refl].
Qed.

(** Whitespace and tokens. *)

Definition spaceless (s : pystr) : Prop := forallb (fun c => negb (isspace c)) s = true.

Lemma dropwhile_spaceless (s : pystr) : spaceless s -> dropwhile isspace s = s.
Proof.
  destruct s as [|c s]; [reflexivity|]. unfold spaceless; simpl.
  rewrite andb_true_iff, negb_true_iff. intros [-> _]. reflexivity.
Qed.

Lemma spaceless_rev (s : pystr) : spaceless s -> spaceless (rev s).
Proof.
  unfold spaceless. rewrite !forallb_forall. intros H c Hc.
  apply H. apply in_rev. exact Hc.
Qed.

Lemma strip_spaceless (s : pystr) : spaceless s -> strip s = s.
Proof.
  intro H. unfold strip. rewrite (dropwhile_spaceless H).
  rewrite (dropwhile_spaceless (spaceless_rev H)). apply rev_involutive.
Qed.

Lemma spaceless_no_space (s : pystr) : spaceless s -> has_char 32%N s = false.
Proof.
  unfold spaceless, has_char. intro H.
  destruct (existsb (N.eqb 32) s) eqn:E; [|reflexivity].
  apply existsb_exists in E. destruct E as [c [Hc Ec]].
  apply N.eqb_eq in Ec. subst c.
  rewrite forallb_forall in H. specialize (H _ Hc). discriminate.
Qed.

(** Every token of [split] is non-empty and free of whitespace. *)
Lemma split_from_tokens (s cur : pystr) :
  spaceless cur ->
  Forall (fun t => t <> [] /\ spaceless t) (split_from cur s).
Proof.
  revert cur. induction s as [|c s IH]; intros cur Hcur; simpl.
  - destruct cur as [|x cur]; constructor; [|constructor].
    split; [|apply (spaceless_rev Hcur)].
    simpl. intro E. apply app_eq_nil in E. destruct E; discriminate.
  - destruct (isspace c) eqn:Ec.
    + destruct cur as [|x cur].
      * apply IH. reflexivity.
      * constructor; [|apply IH; reflexivity].
        split; [|apply (spaceless_rev Hcur)].
        simpl. intro E. apply app_eq_nil in E. destruct E; discriminate.
    + apply IH. unfold spaceless in *. simpl. rewrite Ec. exact Hcur.
Qed.

Lemma split_ws_tokens (s : pystr) :
  Forall (fun t => t <> [] /\ spaceless t) (split_ws s).
Proof. apply split_from_tokens. reflexivity. Qed.

Lemma split_from_trailing (ws : pystr) :
  forallb isspace ws = true ->
  forall s cur, split_from cur (s ++ ws) = split_from cur s.
Proof.
  intros Hws.
  assert (Hbase : forall cur, split_from cur ws = split_from cur []).
  { induction ws as [|c ws IH]; intro cur; [reflexivity|].
    simpl in Hws. apply andb_true_iff in Hws. destruct Hws as [Hc Hws].
    simpl. rewrite Hc. specialize (IH Hws).
    destruct cur; rewrite IH; reflexivity. }
  induction s as [|c s IH]; intro cur; simpl.
  - apply Hbase.
  - destruct (isspace c); [destruct cur|]; rewrite ?IH; reflexivity.
Qed.

Lemma split_ws_lstrip (s : pystr) : split_ws (dropwhile isspace s) = split_ws s.
Proof.
  unfold split_ws. induction s as [|c s IH]; [reflexivity|].
  simpl. destruct (isspace c) eqn:Ec; [exact IH|].
  simpl. rewrite Ec. reflexivity.
Qed.

(** [s] is its right-stripped part followed by whitespace. *)
Lemma rstrip_split_rev (r : pystr) :
  exists ws, forallb isspace ws = true /\
             rev r = rev (dropwhile isspace r) ++ ws.
Proof.
  induction r as [|c r IH]; simpl.
  - exists []. split; reflexivity.
  - destruct (isspace c) eqn:Ec.
    + destruct IH as [ws [Hws E]]. exists (ws ++ [c]). split.
      * rewrite forallb_app, Hws. simpl. rewrite Ec. reflexivity.
      * rewrite E. rewrite app_assoc. reflexivity.
    + exists []. split; [reflexivity|]. simpl. rewrite app_nil_r. reflexivity.
Qed.

Lemma rstrip_split (s : pystr) :
  exists ws, forallb isspace ws = true /\
             s = rev (dropwhile isspace (rev s)) ++ ws.
Proof.
  destruct (rstrip_split_rev (rev s)) as [ws [Hws E]].
  rewrite rev_involutive in E. exists ws. split; assumption.
Qed.

Lemma split_ws_strip (s : pystr) : split_ws (strip s) = split_ws s.
Proof.
  unfold strip. rewrite <- (split_ws_lstrip s).
  destruct (rstrip_split (dropwhile isspace s)) as [ws [Hws E]].
  rewrite E at 2. unfold split_ws. rewrite (split_from_trailing _ Hws).
  reflexivity.
Qed.

(** A token is its own command token. *)
Lemma command_token_of_token (t : pystr) : spaceless t -> command_token t = Ret t.
Proof.
  intro H. unfold command_token. rewrite (strip_spaceless H).
  rewrite (spaceless_no_space H). reflexivity.
Qed.

Lemma dropwhile_head (p : N -> bool) (s : pystr) :
  match dropwhile p s with [] => True | c :: _ => p c = false end.
Proof.
  induction s as [|c s IH]; simpl; [exact I|].
  destruct (p c) eqn:Ec; [exact IH | exact Ec].
Qed.

Lemma split_from_nonnil (s cur : pystr) : cur <> [] -> split_from cur s <> [].
Proof.
  revert cur. induction s as [|x s IH]; intros cur Hcur; simpl.
  - destruct cur; [congruence | discriminate].
  - destruct (isspace x); [destruct cur; [congruence | discriminate]|].
    apply IH. discriminate.
Qed.

(** The stripped string starts with a character that is not whitespace. *)
Lemma strip_head (s : pystr) :
  match strip s with [] => True | c :: _ => isspace c = false end.
Proof.
  unfold strip. pose proof (dropwhile_head isspace s) as Hd.
  destruct (rstrip_split (dropwhile isspace s)) as [ws [_ E]].
  destruct (rev (dropwhile isspace (rev (dropwhile isspace s)))) as [|c core];
    [exact I|].
  rewrite E in Hd. exact Hd.
Qed.

(** With a space inside, the command token is the first whitespace-delimited
    token, and [cmd.split()[0]] does not raise. *)
Lemma command_token_space (cmd : pystr) :
  has_char 32%N (strip cmd) = true ->
  exists t rest, split_ws cmd = t :: rest /\ command_token cmd = Ret t.
Proof.
  intro H. unfold command_token. rewrite H.
  pose proof (strip_head cmd) as Hh. pose proof (split_ws_strip cmd) as Hs.
  destruct (strip cmd) as [|c core]; [discriminate H|].
  unfold split_ws in Hs at 1. simpl in Hs. rewrite Hh in Hs.
  destruct (split_from [c] core) as [|t rest] eqn:E.
  - exfalso. apply (@split_from_nonnil core [c]); [discriminate | exact E].
  - exists t, rest. split; [symmetry; exact Hs|].
    unfold split_ws. simpl. rewrite Hh, E. reflexivity.
Qed.

(** Without a space inside, the whole stripped string is the command token. *)
Lemma command_token_no_space (cmd : pystr) :
  has_char 32%N (strip cmd) = false -> command_token cmd = Ret (strip cmd).
Proof. intro H. unfold command_token. rewrite H. reflexivity. Qed.

(* ===================================================================== *)
(** * The validators *)
(* ===================================================================== *)

Local Open Scope py_scope.

(** Unfolds the monad and splits on the next scrutinee. *)
Ltac step_m :=
  match goal with
  | |- context [match ?x with _ => _ end] =>
      lazymatch x with
      | context [match _ with _ => _ end] => fail
      | _ => destruct x eqn:?
      end
  end.

Ltac run_m :=
  unfold bind, ask, ask_res, ret, raise, try_except; simpl;
  repeat (step_m; simpl); try reflexivity.

(** ** [validate_editor_command] *)

Lemma executable_checks_frame (p : pystr) (w : world) :
  snd (executable_checks p w) = w.
Proof. unfold executable_checks. run_m. Qed.

(** A basename on the deny-list ends the validation at once. *)
Lemma dangerous_basename_rejected (w : world) (cmd t : pystr) :
  command_token cmd = Ret t ->
  In (basename t) dangerous_commands ->
  validate_editor_command (Some cmd) w = (Ret None, w).
Proof.
  intros Ht Hin. unfold validate_editor_command.
  destruct (nonempty cmd); [|reflexivity].
  unfold bind, negb. rewrite Ht. cbv beta iota zeta.
  apply mem_In in Hin. rewrite Hin. reflexivity.
Qed.



(** Scenario D: [rm] is rejected on every host. *)
Example rm_rejected (w : world) :
  validate_editor_command (Some (u "rm")) w = (Ret None, w).
Proof.
  apply dangerous_basename_rejected with (t := u "rm"); [reflexivity|].
  vm_compute. tauto.
Qed.

(** The same for a candidate with arguments: the first whitespace-delimited
    token decides. *)
Corollary deny_list_rejects_first_word (w : world) (cmd t : pystr) (rest : list pystr) :
  has_char 32%N (strip cmd) = true ->
  split_ws cmd = t :: rest ->
  In (basename t) dangerous_commands ->
  validate_editor_command (Some cmd) w = (Ret None, w).
Proof.
  intros Hsp Hsplit Hin.
  destruct (command_token_space cmd Hsp) as [t' [rest' [E Ht]]].
  rewrite Hsplit in E. inversion E; subst t' rest'.
  exact (dangerous_basename_rejected w cmd Ht Hin).
Qed.

(** C5, as stated, fails: a candidate whose only whitespace is a tab is
    not cut at the tab.  On a desktop where [code] is an installed editor,
    [code<TAB>--wait] is looked up whole and rejected, while its first
    token [code] validates. *)
Lemma tab_candidate_not_tokenised :
  let cmd := u "code" ++ [9%N] ++ u "--wait" in
  existsb isspace cmd = true
  /\ split_ws cmd = [u "code"; u "--wait"]
  /\ command_token cmd = Ret cmd
  /\ fst (validate_editor_command (Some cmd) Desk.al) = Ret None
  /\ fst (validate_editor_command (Some (u "code")) Desk.al)
     = Ret (Some (u "/usr/bin/code")).
Proof. vm_compute. repeat split. Qed.

(** C5, amended.  For every candidate whose stripped form contains a space
    character, the candidate has a first whitespace-delimited token and
    the function does on the candidate exactly what it does on that token
    alone: what follows the token is never looked at. *)
Theorem first_token_only (w : world) (cmd : pystr) :
  has_char 32%N (strip cmd) = true ->
  exists t rest,
    split_ws cmd = t :: rest
    /\ validate_editor_command (Some cmd) w = validate_editor_command (Some t) w.
Proof.
  intro Hsp.
  destruct (command_token_space cmd Hsp) as [t [rest [Hsplit Ht]]].
  exists t, rest. split; [exact Hsplit|].
  pose proof (split_ws_tokens cmd) as HF. rewrite Hsplit in HF.
  inversion HF as [|? ? [Hne Hsl] _]; subst.
  assert (Hcmd : nonempty cmd = true).
  { destruct cmd; [discriminate Hsp | reflexivity]. }
  assert (Htn : nonempty t = true).
  { destruct t; [congruence | reflexivity]. }
  unfold validate_editor_command. rewrite Hcmd, Htn. simpl.
  unfold bind. rewrite Ht, (command_token_of_token Hsl). reflexivity.
Qed.

Lemma first_token_only_witness :
  has_char 32%N (strip (u "code --wait")) = true
  /\ exists t rest,
       split_ws (u "code --wait") = t :: rest
       /\ validate_editor_command (Some (u "code --wait")) Desk.al
          = validate_editor_command (Some t) Desk.al.
Proof.
  split; [reflexivity|].
  apply (@first_token_only Desk.al (u "code --wait")). reflexivity.
Defined.

(** Scenario C: [code --wait] is validated as [code]. *)
Example code_wait_validated :
  fst (validate_editor_command (Some (u "code --wait")) Desk.al)
  = Ret (Some (u "/usr/bin/code")).
Proof. reflexivity. Qed.

(** ** [validate_directory] *)

(** The function only asks the host: it returns the world it was given,
    and its result is a function of the host and the candidate. *)
Lemma validate_directory_frame (path : option pystr) (w : world) :
  snd (validate_directory path w) = w.
Proof. unfold validate_directory. run_m. Qed.

Lemma validate_directory_host_only (path : option pystr) (w w' : world) :
  w_host w' = w_host w ->
  fst (validate_directory path w') = fst (validate_directory path w).
Proof.
  destruct w as [h k s l t], w' as [h' k' s' l' t']. simpl. intros ->.
  unfold validate_directory. run_m.
Qed.

(** It never raises: every exception the host can answer with in
    [realpath] is either caught or, for classes other than [OSError] and
    [ValueError], passed on. *)
Lemma validate_directory_returns (path : option pystr) (w : world) :
  (forall p e, realpath (w_host w) p = Exc e -> is_OSError e || is_ValueError e = true) ->
  exists r, fst (validate_directory path w) = Ret r.
Proof.
  intro Hexc. unfold validate_directory.
  destruct path as [p|]; [|simpl; eauto].
  destruct (nonempty p); [|simpl; eauto].
  unfold bind, ask, ask_res, ret, try_except, negb. cbv beta.
  destruct (realpath (w_host w) p) as [rp|e] eqn:E.
  - repeat (step_m; simpl); eauto.
  - rewrite (Hexc _ _ E). simpl. eauto.
Qed.

(** C10.  Calling [validate_directory] twice in a row on the same
    candidate gives the same result both times, and neither call changes
    the world: the widget's fields, the log, the trace of actions and the
    clock are what they were. *)
Theorem validate_directory_idempotent (path : option pystr) (w : world) :
  let '(r1, w1) := validate_directory path w in
  let '(r2, w2) := validate_directory path w1 in
  r1 = r2 /\ w1 = w /\ w2 = w.
Proof.
  pose proof (validate_directory_frame path w) as F1.
  destruct (validate_directory path w) as [r1 w1] eqn:E1. simpl in F1. subst w1.
  rewrite E1. auto.
Qed.

(** What a successful validation establishes. *)
Lemma validate_directory_success (path : option pystr) (w : world) (rp : pystr) :
  fst (validate_directory path w) = Ret (Some rp) ->
  exists p, path = Some p
    /\ realpath (w_host w) p = Ret rp
    /\ isdir (w_host w) rp = true
    /\ access_R (w_host w) rp = true
    /\ mem rp forbidden_dirs = false
    /\ in_allowed_prefixes (w_host w) rp = true.
Proof.
  unfold validate_directory.
  destruct path as [p|]; [|discriminate].
  destruct (nonempty p); [|discriminate].
  unfold bind, ask, ask_res, ret, try_except, negb. cbv beta.
  destruct (realpath (w_host w) p) as [r|e] eqn:E.
  - destruct (isdir (w_host w) r) eqn:Ed; [|discriminate].
    destruct (access_R (w_host w) r) eqn:Ea; [|discriminate].
    destruct (mem r forbidden_dirs) eqn:Ef; [discriminate|].
    destruct (in_allowed_prefixes (w_host w) r) eqn:Eo; [|discriminate].
    simpl. intro H. inversion H; subst r. exists p. repeat split; assumption.
  - destruct (is_OSError e || is_ValueError e); discriminate.
Qed.

(** Validating the validated path again gives the same path, as soon as
    [realpath] leaves an already resolved (and so absolute, non-empty)
    path alone. *)
Lemma validate_directory_fixpoint (path : option pystr) (w : world) (rp : pystr) :
  fst (validate_directory path w) = Ret (Some rp) ->
  rp <> [] ->
  realpath (w_host w) rp = Ret rp ->
  fst (validate_directory (Some rp) w) = Ret (Some rp).
Proof.
  intros H Hne Hrp.
  destruct (validate_directory_success _ _ H) as [p [_ [_ [Hd [Ha [Hf Ho]]]]]].
  unfold validate_directory.
  destruct rp as [|c rp]; [congruence|].
  unfold bind, ask, ask_res, ret, try_except, negb, nonempty. cbv beta iota.
  rewrite Hrp, Hd, Ha, Hf, Ho. reflexivity.
Qed.



(** Scenario A: [/etc] is rejected. *)
Example etc_rejected :
  fst (validate_directory (Some (u "/etc")) Desk.al) = Ret None.
Proof. reflexivity. Qed.

(** A strict subdirectory of a forbidden directory passes when it lies
    under an allowed prefix: with [/root] as the home directory,
    [/root/work] is accepted although [/root] itself is not. *)
Example forbidden_subdirectory_accepted :
  let w := Desk.fresh (Desk.desk (u "/root") Desk.no_tools) None None in
  fst (validate_directory (Some (u "/root/work")) w) = Ret (Some (u "/root/work"))
  /\ fst (validate_directory (Some (u "/root")) w) = Ret None.
Proof. split; reflexivity. Qed.

(** C3.  The allow-list test compares the home directory as a bare string
    prefix.  With [/home/al] as the invoking user's home directory, the
    directory [/home/alice] is neither an allow-list root nor a descendant
    of one, and is not a forbidden directory, yet it is accepted. *)
Theorem home_prefix_sibling_accepted :
  let h := w_host Desk.al in
  expanduser h (u "~") = u "/home/al"
  /\ realpath h (u "/home/alice") = Ret (u "/home/alice")
  /\ under_allow_list_root h (u "/home/alice") = false
  /\ mem (u "/home/alice") forbidden_dirs = false
  /\ validate_directory (Some (u "/home/alice")) Desk.al
     = (Ret (Some (u "/home/alice")), Desk.al).
Proof. vm_compute. repeat split. Qed.

(** What the allow-list test does guarantee.  On the six fixed roots it
    is the claim's "itself or a descendant"; on the home directory it is a
    comparison of string prefixes. *)
Lemma root_test_eq (root pre rp : pystr) :
  rstrip_chars [slash] pre = root ->
  pre = root ++ [slash] ->
  str_eqb root [slash] = false ->
  startswith pre rp || str_eqb rp (rstrip_chars [slash] pre)
  = is_self_or_descendant root rp.
Proof.
  intros H1 H2 H3. unfold is_self_or_descendant.
  rewrite H1, H3, <- H2. apply orb_comm.
Qed.

Lemma in_allowed_prefixes_spec (h : host) (rp : pystr) :
  in_allowed_prefixes h rp
  = (startswith (expanduser h (u "~")) rp
     || str_eqb rp (rstrip_chars [slash] (expanduser h (u "~"))))
    || existsb (fun root => is_self_or_descendant root rp) (tl (allow_list_roots h)).
Proof.
  unfold in_allowed_prefixes, allowed_prefixes, allow_list_roots.
  set (home := expanduser h (u "~")).
  cbn [existsb tl List.map].
  rewrite (@root_test_eq (u "/tmp") (u "/tmp/")) by reflexivity.
  rewrite (@root_test_eq (u "/var/tmp") (u "/var/tmp/")) by reflexivity.
  rewrite (@root_test_eq (u "/opt") (u "/opt/")) by reflexivity.
  rewrite (@root_test_eq (u "/usr/local") (u "/usr/local/")) by reflexivity.
  rewrite (@root_test_eq (u "/media") (u "/media/")) by reflexivity.
  rewrite (@root_test_eq (u "/mnt") (u "/mnt/")) by reflexivity.
  reflexivity.
Qed.

Lemma validate_editor_command_frame (cmd : option pystr) (w : world) :
  snd (validate_editor_command cmd w) = w.
Proof.
  unfold validate_editor_command.
  destruct cmd as [c|]; [|reflexivity].
  destruct (nonempty c); [|reflexivity].
  unfold executable_checks. run_m.
Qed.

Lemma validate_editor_command_host_only (cmd : option pystr) (w w' : world) :
  w_host w' = w_host w ->
  fst (validate_editor_command cmd w') = fst (validate_editor_command cmd w).
Proof.
  destruct w as [h k s l t], w' as [h' k' s' l' t']. simpl. intros ->.
  unfold validate_editor_command.
  destruct cmd as [c|]; [|reflexivity].
  destruct (nonempty c); [|reflexivity].
  unfold executable_checks. run_m.
Qed.

(** A validated directory is never one of the forbidden directories. *)
Lemma validated_directory_not_forbidden (path : option pystr) (w : world) (rp : pystr) :
  fst (validate_directory path w) = Ret (Some rp) -> ~ In rp forbidden_dirs.
Proof.
  intros H Hin. apply mem_In in Hin.
  destruct (validate_directory_success _ _ H) as [p [_ [_ [_ [_ [Hf _]]]]]].
  congruence.
Qed.

(* ===================================================================== *)
(** * Launching *)
(* ===================================================================== *)

Definition configured_editor (w : world) : pystr :=
  match editor_command (w_self w) with Some c => c | None => u "code" end.

Definition popens (w : world) : list (list pystr) :=
  flat_map (fun ka => match snd ka with ActPopen argv => [argv] | _ => [] end)
           (w_trace w).

(** The configured-editor path starts a process only with the two
    validated values. *)
Lemma try_open_with_editor_validated (w : world) :
  let w' := snd (try_open_with_editor w) in
  popens w' = popens w
  \/ exists vc vd,
       fst (validate_editor_command (Some (configured_editor w)) w) = Ret (Some vc)
       /\ fst (validate_directory (current_directory (w_self w)) w) = Ret (Some vd)
       /\ popens w' = [vc; vd] :: popens w.
Proof.
  unfold try_open_with_editor, configured_editor.
  unfold try_except, bind, get_self, logger, time_time.
  cbn -[validate_editor_command validate_directory u].
  remember (match editor_command (w_self w) with Some c => c | None => u "code" end)
    as cmd eqn:Hcmd. clear Hcmd.
  set (w2 := add_log _ _).
  pose proof (validate_editor_command_frame (Some cmd) w2) as Fc.
  pose proof (@validate_editor_command_host_only (Some cmd) w w2 eq_refl) as Hc.
  destruct (validate_editor_command (Some cmd) w2) as [[vc|e] w3];
    cbn [fst snd] in Fc, Hc; subst w3.
  2:{ left. reflexivity. }
  destruct vc as [[|c vc]|]; try (left; reflexivity).
  cbn -[validate_editor_command validate_directory].
  pose proof (validate_directory_frame (current_directory (w_self w)) w2) as Fd.
  pose proof (@validate_directory_host_only (current_directory (w_self w)) w w2 eq_refl) as Hd.
  destruct (validate_directory (current_directory (w_self w)) w2) as [[vd|e] w3];
    cbn [fst snd] in Fd, Hd; subst w3.
  2:{ left. reflexivity. }
  destruct vd as [[|d vd]|]; try (left; reflexivity).
  right. exists (c :: vc), (d :: vd). split; [symmetry; exact Hc|].
  split; [symmetry; exact Hd|].
  unfold subprocess_Popen, append_launched, put_self, bind, get_self, time_time, ret.
  subst w2. cbn -[popens].
  match goal with |- context [popen ?h ?a] => destruct (popen h a) end;
    reflexivity.
Qed.

(** C1.  The fallback path starts a process with values that no validator
    produced.  Al browses [/etc] in Nautilus and presses the button, with
    [code] as the editor setting: the configured-editor path refuses
    (the directory does not validate), the list of common editors is
    tried, and [code] is started on [/etc].  The directory [/etc] is not a
    validated path (the validator rejects it), and the command [code] is
    not what the validator returns for [code]. *)
Theorem common_editors_launch_unvalidated :
  let w := Desk.al_browsing_etc in
  let w' := snd (on_button_clicked w) in
  popens w' = [[u "code"; u "/etc"]]
  /\ fst (validate_directory (Some (u "/etc")) w) = Ret None
  /\ fst (validate_editor_command (Some (u "code")) w) = Ret (Some (u "/usr/bin/code"))
  /\ current_directory (w_self w') = Some (u "/etc")
  /\ editor_command (w_self w') = Some (u "code").
Proof. vm_compute. repeat split. Qed.

(** No candidate at all validates to [/etc], on any host. *)
Corollary etc_is_never_validated (path : option pystr) (w : world) :
  fst (validate_directory path w) <> Ret (Some (u "/etc")).
Proof.
  intro H. apply (validated_directory_not_forbidden _ _ H).
  vm_compute. tauto.
Qed.

(* ===================================================================== *)
(** * The resolver *)
(* ===================================================================== *)

Definition not_found (o : outcome) : Prop :=
  match o with Found _ => False | _ => True end.

Definition tried (name : string) (o : outcome) : attempt :=
  {| a_method := u name; a_outcome := o |}.

(** One attempt never raises: whatever the method raises is recorded. *)
Lemma try_method_returns (name : pystr) (method : M (option pystr)) (w : world) :
  exists o w', try_method name method w = (Ret o, w').
Proof.
  unfold try_method, try_except, bind, logger, ask, time_time, ret.
  destruct (method (add_log (LogTrying name) w)) as [[d|e] w1].
  - destruct d as [[|c s]|]; try (eexists; eexists; reflexivity).
    destruct (exists_ (w_host w1) (c :: s)); eexists; eexists; reflexivity.
  - simpl. eexists; eexists; reflexivity.
Qed.

(** An accepted result is what the method returned, and it exists on the
    file system of the moment. *)
Lemma try_method_found (name : pystr) (method : M (option pystr))
    (w w' : world) (d : pystr) :
  try_method name method w = (Ret (Found d), w') ->
  exists w1,
    method (add_log (LogTrying name) w) = (Ret (Some d), w1)
    /\ d <> []
    /\ exists_ (w_host w1) d = true
    /\ w_host w' = w_host w1.
Proof.
  unfold try_method, try_except, bind, logger, ask, time_time, ret.
  destruct (method (add_log (LogTrying name) w)) as [[r|e] w1].
  - destruct r as [[|c s]|]; try discriminate.
    destruct (exists_ (w_host w1) (c :: s)) eqn:Ex; [|discriminate].
    intro H. inversion H; subst. exists w1.
    repeat split; auto. discriminate.
  - simpl. discriminate.
Qed.

(** A method that raises is recorded as an error, and one that returns
    nothing as not found. *)
Lemma try_method_raises (name : pystr) (method : M (option pystr))
    (w w1 : world) (e : exn) :
  method (add_log (LogTrying name) w) = (Exc e, w1) ->
  try_method name method w = (Ret (Error e), add_log (LogMethodFailed name e) w1).
Proof.
  intro H. unfold try_method, try_except, bind, logger, ret.
  rewrite H. reflexivity.
Qed.

(** One round of the loop of the resolver. *)
Lemma run_methods_cons (st : Z) (name : pystr) (method : M (option pystr))
    (methods : list (pystr * M (option pystr))) (w : world) :
  run_methods st ((name, method) :: methods) w
  = match try_method name method w with
    | (Ret (Found d), w') =>
        (Ret (Some d, [{| a_method := name; a_outcome := Found d |}]), w')
    | (Ret o, w') =>
        match run_methods st methods w' with
        | (Ret r, w'') =>
            (Ret (fst r, {| a_method := name; a_outcome := o |} :: snd r), w'')
        | (Exc e, w'') => (Exc e, w'')
        end
    | (Exc e, w') => (Exc e, w')
    end.
Proof.
  cbn [run_methods]. unfold bind at 1.
  destruct (try_method name method w) as [[o|e] w']; [|reflexivity].
  destruct o; reflexivity.
Qed.

Lemma run_methods_nil (st : Z) (w : world) :
  run_methods st [] w
  = (Ret (None, []), add_log LogNoDirectory (snd (time_time w))).
Proof. reflexivity. Qed.

Lemma resolve_traced_unfold (dbus active_window fallback : M (option pystr))
    (w : world) :
  resolve_traced dbus active_window fallback w
  = run_methods (clock (w_host w) (w_ticks w))
      [ (u "DBus", dbus); (u "Active Window", active_window);
        (u "Fallback", fallback) ]
      (snd (time_time w)).
Proof. reflexivity. Qed.

Section ResolverFacts.

Variables dbus active_window fallback : M (option pystr).
Variable w : world.

(** The worlds and outcomes of the three attempts, were they all made. *)
Let w0 := snd (time_time w).
Let s1 := try_method (u "DBus") dbus w0.
Let s2 := try_method (u "Active Window") active_window (snd s1).
Let s3 := try_method (u "Fallback") fallback (snd s2).

(** The four ways a resolution can go. *)
Lemma resolve_traced_cases :
  (exists d,
      fst s1 = Ret (Found d)
      /\ resolve_traced dbus active_window fallback w
         = (Ret (Some d, [tried "DBus" (Found d)]), snd s1))
  \/ (exists o1 d,
      fst s1 = Ret o1 /\ not_found o1 /\ fst s2 = Ret (Found d)
      /\ resolve_traced dbus active_window fallback w
         = (Ret (Some d, [tried "DBus" o1; tried "Active Window" (Found d)]),
            snd s2))
  \/ (exists o1 o2 d,
      fst s1 = Ret o1 /\ not_found o1 /\ fst s2 = Ret o2 /\ not_found o2
      /\ fst s3 = Ret (Found d)
      /\ resolve_traced dbus active_window fallback w
         = (Ret (Some d, [tried "DBus" o1; tried "Active Window" o2;
                          tried "Fallback" (Found d)]),
            snd s3))
  \/ (exists o1 o2 o3,
      fst s1 = Ret o1 /\ not_found o1 /\ fst s2 = Ret o2 /\ not_found o2
      /\ fst s3 = Ret o3 /\ not_found o3
      /\ resolve_traced dbus active_window fallback w
         = (Ret (None, [tried "DBus" o1; tried "Active Window" o2;
                        tried "Fallback" o3]),
            add_log LogNoDirectory (snd (time_time (snd s3))))).
Proof.
  rewrite resolve_traced_unfold. fold w0.
  generalize (clock (w_host w) (w_ticks w)). intro st.
  destruct (try_method_returns (u "DBus") dbus w0) as [o1 [w1 E1]].
  assert (Hs1 : s1 = (Ret o1, w1)) by exact E1.
  assert (Hs2 : s2 = try_method (u "Active Window") active_window w1)
    by (unfold s2; rewrite Hs1; reflexivity).
  destruct (try_method_returns (u "Active Window") active_window w1) as [o2 [w2 E2]].
  assert (Hs3 : s3 = try_method (u "Fallback") fallback w2)
    by (unfold s3; rewrite Hs2, E2; reflexivity).
  destruct (try_method_returns (u "Fallback") fallback w2) as [o3 [w3 E3]].
  rewrite Hs3, Hs2, Hs1, E2, E3. cbn [fst snd].
  rewrite !run_methods_cons, E1.
  destruct o1 as [d1| |e1].
  { left. exists d1. split; reflexivity. }
  all: right; rewrite !run_methods_cons, E2.
  all: destruct o2 as [d2| |e2];
    [ left; eexists; exists d2; repeat split; reflexivity | | ].
  all: right; rewrite !run_methods_cons, E3.
  all: destruct o3 as [d3| |e3];
    [ left; eexists; eexists; exists d3; repeat split; reflexivity | | ].
  all: right; rewrite run_methods_nil; eexists; eexists; eexists;
    repeat split; reflexivity.
Qed.

End ResolverFacts.

Lemma resolve_of_traced (dbus active_window fallback : M (option pystr))
    (w w' : world) (r : option pystr) (atts : list attempt) :
  resolve_traced dbus active_window fallback w = (Ret (r, atts), w') ->
  resolve dbus active_window fallback w = (Ret r, w').
Proof. intro H. unfold resolve, bind. rewrite H. reflexivity. Qed.


(** When the DBus strategy is accepted, no child process of a later
    strategy is started: on Al's desktop with Nautilus showing [/etc], the
    processes run are the three of the DBus strategy. *)
Example dbus_success_runs_nothing_else :
  let r := get_nautilus_directory_multiple_methods Desk.al_browsing_etc in
  fst r = Ret (Some (u "/etc"))
  /\ List.map snd (w_trace (snd r))
     = [ ActRun Desk.gdbus_location;
         ActRun [u "xdotool"; u "getwindowfocus"];
         ActRun [u "xdotool"; u "search"; u "--class"; u "nautilus"] ].
Proof. vm_compute. split; reflexivity. Qed.

Lemma try_method_found_exists (name : pystr) (method : M (option pystr))
    (w : world) (d : pystr) :
  fst (try_method name method w) = Ret (Found d) ->
  d <> [] /\ exists_ (w_host (snd (try_method name method w))) d = true.
Proof.
  destruct (try_method name method w) as [o w1] eqn:T. cbn [fst snd].
  intros ->.
  destruct (try_method_found _ _ _ T) as [w2 [_ [Hne [Hex Hh]]]].
  rewrite Hh. auto.
Qed.

(** What the resolver does check of an accepted result: it is a
    non-empty string that [os.path.exists] accepts when it is returned. *)
Lemma resolve_accepts_existing
    (dbus active_window fallback : M (option pystr)) (w w' : world)
    (d : pystr) (atts : list attempt) :
  resolve_traced dbus active_window fallback w = (Ret (Some d, atts), w') ->
  d <> [] /\ exists_ (w_host w') d = true.
Proof.
  intro H.
  destruct (resolve_traced_cases dbus active_window fallback w)
    as [[d' [H1 E]] | [[o1 [d' [H1 [N1 [H2 E]]]]]
       | [[o1 [o2 [d' [H1 [N1 [H2 [N2 [H3 E]]]]]]]]
         | [o1 [o2 [o3 [H1 [N1 [H2 [N2 [H3 [N3 E]]]]]]]]]]]];
    rewrite E in H; inversion H; subst; clear H.
  - apply (try_method_found_exists _ _ _ H1).
  - apply (try_method_found_exists _ _ _ H2).
  - apply (try_method_found_exists _ _ _ H3).
Qed.

(** C7.  The resolver accepts a result that is not a directory.  Al has
    no Nautilus window, and the active window's title is the path of a
    regular file, [/etc/hostname]: the DBus strategy finds nothing, the
    Active Window strategy takes the title for a directory because it
    exists, and the resolver returns it. *)
Theorem resolver_accepts_a_file :
  let w := Desk.al_viewing_file in
  let h := w_host w in
  exists_ h (u "/etc/hostname") = true
  /\ isdir h (u "/etc/hostname") = false
  /\ fst (get_directory_from_dbus w) = Ret None
  /\ fst (extract_directory_from_title (u "/etc/hostname") w)
     = Ret (Some (u "/etc/hostname"))
  /\ fst (resolve_traced get_directory_from_dbus
            get_directory_from_active_nautilus_window
            get_directory_from_fallback w)
     = Ret (Some (u "/etc/hostname"),
            [ tried "DBus" NotFound;
              tried "Active Window" (Found (u "/etc/hostname")) ])
  /\ fst (get_nautilus_directory_multiple_methods w)
     = Ret (Some (u "/etc/hostname")).
Proof. vm_compute. repeat split. Qed.

(** The three strategies catch every exception. *)
Lemma catch_all_returns (body : M (option pystr)) (w : world) :
  exists r w',
    try_except body is_Exception (fun _ => ret None) w = (Ret r, w').
Proof.
  unfold try_except, ret, is_Exception.
  destruct (body w) as [[r|e] w']; eexists; eexists; reflexivity.
Qed.

(** C8.  None of the three detection strategies raises; a method that
    raises inside the resolver is recorded as an error and the loop goes
    on; and the resolver itself never raises, whatever its three methods
    do, and returns [None] exactly when all three were tried and none
    produced an accepted result. *)
Theorem failures_are_contained :
  (forall w, exists r w', get_directory_from_dbus w = (Ret r, w'))
  /\ (forall w, exists r w',
         get_directory_from_active_nautilus_window w = (Ret r, w'))
  /\ (forall w, exists r w', get_directory_from_fallback w = (Ret r, w'))
  /\ (forall name (method : M (option pystr)) w w1 e,
         method (add_log (LogTrying name) w) = (Exc e, w1) ->
         try_method name method w
         = (Ret (Error e), add_log (LogMethodFailed name e) w1))
  /\ (forall (dbus active_window fallback : M (option pystr)) w,
         exists r atts w',
           resolve_traced dbus active_window fallback w = (Ret (r, atts), w')
           /\ resolve dbus active_window fallback w = (Ret r, w')
           /\ (r = None <->
               List.map a_method atts
               = [u "DBus"; u "Active Window"; u "Fallback"]
               /\ Forall (fun a => not_found (a_outcome a)) atts)).
Proof.
  split; [intro w; apply catch_all_returns|].
  split; [intro w; apply catch_all_returns|].
  split; [intro w; apply catch_all_returns|].
  split; [intros name method w w1 e H; apply (try_method_raises _ _ _ H)|].
  intros dbus active_window fallback w.
  destruct (resolve_traced_cases dbus active_window fallback w)
    as [[d [H1 E]] | [[o1 [d [H1 [N1 [H2 E]]]]]
       | [[o1 [o2 [d [H1 [N1 [H2 [N2 [H3 E]]]]]]]]
         | [o1 [o2 [o3 [H1 [N1 [H2 [N2 [H3 [N3 E]]]]]]]]]]]].
  - do 3 eexists. split; [exact E|]. split; [apply (resolve_of_traced _ _ _ _ E)|].
    split; [discriminate|]. intros [Hn _]. discriminate Hn.
  - do 3 eexists. split; [exact E|]. split; [apply (resolve_of_traced _ _ _ _ E)|].
    split; [discriminate|]. intros [Hn _]. discriminate Hn.
  - do 3 eexists. split; [exact E|]. split; [apply (resolve_of_traced _ _ _ _ E)|].
    split; [discriminate|]. intros [_ Hf].
    inversion Hf as [|? ? _ Hf2]; subst. inversion Hf2 as [|? ? _ Hf3]; subst.
    inversion Hf3 as [|? ? Hbad _]; subst. destruct Hbad.
  - do 3 eexists. split; [exact E|]. split; [apply (resolve_of_traced _ _ _ _ E)|].
    split; [|reflexivity]. intros _. split; [reflexivity|].
    repeat constructor; assumption.
Qed.

(** A strategy whose tool is missing raises inside and still returns:
    with no helper tools at all the resolver falls back to the working
    directory. *)
Lemma failures_are_contained_witness :
  try_method (u "DBus") (raise FileNotFoundError) Desk.al
  = (Ret (Error FileNotFoundError),
     add_log (LogMethodFailed (u "DBus") FileNotFoundError)
       (add_log (LogTrying (u "DBus")) Desk.al))
  /\ fst (get_nautilus_directory_multiple_methods Desk.al)
     = Ret (Some (u "/home/al")).
Proof.
  destruct failures_are_contained as [_ [_ [_ [Hraise _]]]].
  split.
  - apply (Hraise (u "DBus") (raise FileNotFoundError) Desk.al
             (add_log (LogTrying (u "DBus")) Desk.al) FileNotFoundError).
    reflexivity.
  - reflexivity.
Defined.

(** Scenario E: every strategy fails (no tools, and a working directory
    and home directory that do not exist): the resolver returns [None]. *)
Example nothing_detected :
  let lost := Desk.fresh (Desk.desk (u "/nowhere") Desk.no_tools) None None in
  fst (get_nautilus_directory_multiple_methods lost) = Ret None.
Proof. reflexivity. Qed.

(* ===================================================================== *)
(** * The recursive folder search *)
(* ===================================================================== *)

(** [c] run from [w] has enough fuel, and its result and final world
    satisfy [Q]. *)
Definition pspec {A} (c : PM A) (w : world) (Q : res A -> world -> Prop) : Prop :=
  exists r w', c w = Some (r, w') /\ Q r w'.

Lemma pspec_pret {A} (a : A) (w : world) (Q : res A -> world -> Prop) :
  Q (Ret a) w -> pspec (pret a) w Q.
Proof. intro H. exists (Ret a), w. split; [reflexivity | exact H]. Qed.

Lemma pspec_lift {A} (c : M A) (w : world) (Q : res A -> world -> Prop) :
  Q (fst (c w)) (snd (c w)) -> pspec (lift c) w Q.
Proof.
  intro H. exists (fst (c w)), (snd (c w)). split; [|exact H].
  unfold lift. rewrite <- surjective_pairing. reflexivity.
Qed.

Lemma pspec_pbind {A B} (c : PM A) (k : A -> PM B) (w : world)
    (Q : res B -> world -> Prop) :
  pspec c w (fun r w' => match r with
                         | Ret a => pspec (k a) w' Q
                         | Exc e => Q (Exc e) w'
                         end) ->
  pspec (pbind c k) w Q.
Proof.
  intros [r [w' [E H]]]. unfold pspec, pbind. rewrite E.
  destruct r as [a|e]; [exact H|].
  exists (Exc e), w'. split; [reflexivity | exact H].
Qed.

Lemma pspec_ptry {A} (body : PM A) (classes : exn -> bool)
    (handler : exn -> PM A) (w : world) (Q : res A -> world -> Prop) :
  pspec body w (fun r w' => match r with
                            | Ret a => Q (Ret a) w'
                            | Exc e => if classes e then pspec (handler e) w' Q
                                       else Q (Exc e) w'
                            end) ->
  pspec (ptry_except body classes handler) w Q.
Proof.
  intros [r [w' [E H]]]. unfold pspec, ptry_except. rewrite E.
  destruct r as [a|e].
  - exists (Ret a), w'. split; [reflexivity | exact H].
  - destruct (classes e); [exact H|].
    exists (Exc e), w'. split; [reflexivity | exact H].
Qed.

Lemma pspec_weaken {A} (c : PM A) (w : world) (Q Q' : res A -> world -> Prop) :
  pspec c w Q -> (forall r w', Q r w' -> Q' r w') -> pspec c w Q'.
Proof. intros [r [w' [E H]]] Himp. exists r, w'. split; auto. Qed.

Section SearchFacts.

Variables (h : host) (target : pystr) (max_depth : Z) (start : Z).

(** A listing made by the search below [base], entered at depth [cur]:
    the directory listed is reached from [base] through real directories
    only, within the depth limit, and the reading of the clock that
    precedes the listing is within the budget. *)
Definition listing_ok (base : pystr) (cur : Z) (ka : nat * action) : Prop :=
  exists p n,
    snd ka = ActScandir p
    /\ real_subdir h n base p
    /\ (cur + Z.of_nat n < max_depth)%Z
    /\ (1 <= fst ka)%nat
    /\ (clock h (fst ka - 1) - start <= search_budget)%Z.

(** From [w] to [w']: the host is the same, the clock was only read, and
    the actions added all satisfy [G]. *)
Definition extends (G : nat * action -> Prop) (w w' : world) : Prop :=
  w_host w' = w_host w
  /\ (w_ticks w <= w_ticks w')%nat
  /\ exists seg, w_trace w' = seg ++ w_trace w /\ Forall G seg.

(** A folder returned by the search below [base], entered at depth
    [cur]: a real directory listed in a directory that the search reached,
    whose name is the target up to case and is neither hidden nor
    excluded; and the last reading of the clock is within the budget. *)
Definition found_ok (base : pystr) (cur : Z) (w' : world)
    (r : res (option pystr)) : Prop :=
  forall p, r = Ret (Some p) ->
    (exists n parent es e,
        real_subdir h n base parent
        /\ scandir h parent = Ret es /\ In e es /\ de_kind e = KDir
        /\ p = join parent (de_name e)
        /\ (cur + Z.of_nat n < max_depth)%Z
        /\ str_eqb (lower h (de_name e)) (lower h target) = true
        /\ startswith (u ".") (de_name e) = false
        /\ mem (de_name e) excluded_dirs = false)
    /\ (1 <= w_ticks w')%nat
    /\ (clock h (w_ticks w' - 1) - start <= search_budget)%Z.

Definition search_post (base : pystr) (cur : Z) (w : world)
    (r : res (option pystr)) (w' : world) : Prop :=
  extends (listing_ok base cur) w w' /\ found_ok base cur w' r.

Lemma extends_refl (G : nat * action -> Prop) (w : world) : extends G w w.
Proof.
  split; [reflexivity|]. split; [lia|]. exists []. split; [reflexivity|constructor].
Qed.

Lemma extends_trans (G : nat * action -> Prop) (w1 w2 w3 : world) :
  extends G w1 w2 -> extends G w2 w3 -> extends G w1 w3.
Proof.
  intros [H1 [T1 [s1 [E1 F1]]]] [H2 [T2 [s2 [E2 F2]]]].
  split; [congruence|]. split; [lia|].
  exists (s2 ++ s1). split.
  - rewrite E2, E1. apply app_assoc.
  - apply Forall_app. split; assumption.
Qed.

Lemma extends_mono (G G' : nat * action -> Prop) (w w' : world) :
  (forall ka, G ka -> G' ka) -> extends G w w' -> extends G' w w'.
Proof.
  intros Himp [H1 [T1 [s1 [E1 F1]]]].
  split; [exact H1|]. split; [exact T1|]. exists s1. split; [exact E1|].
  eapply Forall_impl; [|exact F1]. exact Himp.
Qed.

(** Reading the clock and logging extend the world. *)
Lemma extends_tick (G : nat * action -> Prop) (w : world) :
  extends G w (set_ticks (S (w_ticks w)) w).
Proof.
  split; [reflexivity|]. split; [simpl; lia|]. exists []. split; [reflexivity|constructor].
Qed.

Lemma extends_log (G : nat * action -> Prop) (r : log_record) (w : world) :
  extends G w (add_log r w).
Proof.
  split; [reflexivity|]. split; [simpl; lia|]. exists []. split; [reflexivity|constructor].
Qed.

(** A listing below a real subdirectory is a listing below its parent. *)
Lemma listing_ok_down (base : pystr) (cur : Z) (es : list dir_entry)
    (e : dir_entry) (ka : nat * action) :
  scandir h base = Ret es -> In e es -> de_kind e = KDir ->
  listing_ok (join base (de_name e)) (cur + 1) ka ->
  listing_ok base cur ka.
Proof.
  intros Hs Hin Hk [p [n [Ha [Hr [Hd [Ht Hb]]]]]].
  exists p, (S n). split; [exact Ha|].
  split; [eapply rs_down; eassumption|].
  split; [lia|]. split; assumption.
Qed.

Lemma found_ok_down (base : pystr) (cur : Z) (es : list dir_entry)
    (e : dir_entry) (w' : world) (r : res (option pystr)) :
  scandir h base = Ret es -> In e es -> de_kind e = KDir ->
  found_ok (join base (de_name e)) (cur + 1) w' r ->
  found_ok base cur w' r.
Proof.
  intros Hs Hin Hk Hf p Hp.
  destruct (Hf p Hp) as [[n [parent [es' [e' [Hr [Hs' [Hin' [Hk' [Ep [Hd Hrest]]]]]]]]]] Hlast].
  split; [|exact Hlast].
  exists (S n), parent, es', e'.
  split; [eapply rs_down; eassumption|].
  repeat (split; [assumption|]). split; [lia | exact Hrest].
Qed.

(** What is done with one entry of a directory that the search has
    listed, after a reading of the clock within the budget. *)
Lemma scan_entry_spec (descend : pystr -> PM (option pystr)) (base : pystr)
    (cur : Z) (es : list dir_entry) (e : dir_entry) (w : world) :
  w_host w = h ->
  scandir h base = Ret es -> In e es ->
  (cur < max_depth)%Z ->
  (1 <= w_ticks w)%nat ->
  (clock h (w_ticks w - 1) - start <= search_budget)%Z ->
  ((cur <? max_depth - 1)%Z = true -> de_kind e = KDir ->
   pspec (descend (join base (de_name e))) w
         (search_post (join base (de_name e)) (cur + 1) w)) ->
  pspec (scan_entry descend base target max_depth cur e) w
    (fun r w' =>
       extends (listing_ok base cur) w w'
       /\ match r with
          | Ret (Return res) => found_ok base cur w' (Ret res)
          | _ => True
          end).
Proof.
  intros Hh Hs Hin Hcur Ht Hb Hdesc.
  unfold scan_entry. apply pspec_ptry. apply pspec_pbind. apply pspec_lift.
  unfold entry_is_dir.
  destruct (de_kind e) eqn:Hk; cbn [fst snd ret raise negb].
  - (* a real directory *)
    destruct (startswith (u ".") (de_name e) || mem (de_name e) excluded_dirs) eqn:Hx.
    { apply pspec_pret. split; [apply extends_refl | exact I]. }
    apply orb_false_iff in Hx. destruct Hx as [Hdot Hexcl].
    apply pspec_pbind. apply pspec_lift. cbn [fst snd ask]. rewrite Hh.
    destruct (str_eqb (lower h (de_name e)) (lower h target)) eqn:Hsame.
    { apply pspec_pret. split; [apply extends_refl|].
      intros p Hp. inversion Hp; subst p. split; [|split; assumption].
      exists 0%nat, base, es, e. split; [constructor|].
      repeat (split; [assumption|]). split; [reflexivity|].
      split; [lia|]. repeat split; assumption. }
    destruct (cur <? max_depth - 1)%Z eqn:Hdeep.
    2:{ apply pspec_pret. split; [apply extends_refl | exact I]. }
    apply pspec_pbind.
    eapply pspec_weaken; [exact (Hdesc eq_refl eq_refl)|].
    intros r w' [Hext Hfound].
    assert (Hext' : extends (listing_ok base cur) w w').
    { eapply extends_mono; [|exact Hext].
      intros ka Hka. eapply listing_ok_down; eassumption. }
    destruct r as [result|x].
    + destruct (truthy result); apply pspec_pret; (split; [exact Hext'|]);
        [|exact I].
      eapply found_ok_down; eassumption.
    + destruct (is_OSError x).
      * apply pspec_pret. split; [exact Hext' | exact I].
      * split; [exact Hext' | exact I].
  - apply pspec_pret. split; [apply extends_refl | exact I].
  - apply pspec_pret. split; [apply extends_refl | exact I].
  - destruct (is_OSError e0).
    + apply pspec_pret. split; [apply extends_refl | exact I].
    + split; [apply extends_refl | exact I].
Qed.

(** The loop over the entries of a listed directory. *)
Lemma scan_spec (descend : pystr -> PM (option pystr)) (base : pystr)
    (cur : Z) (es : list dir_entry) :
  scandir h base = Ret es ->
  (cur < max_depth)%Z ->
  ((cur <? max_depth - 1)%Z = true ->
   forall e w, In e es -> de_kind e = KDir -> w_host w = h ->
     pspec (descend (join base (de_name e))) w
           (search_post (join base (de_name e)) (cur + 1) w)) ->
  forall entries, incl entries es ->
  forall w, w_host w = h ->
    pspec (scan descend base target max_depth cur start entries) w
          (search_post base cur w).
Proof.
  intros Hs Hcur Hdesc entries.
  induction entries as [|e entries IH]; intros Hincl w Hh.
  - apply pspec_pret. split; [apply extends_refl | intros p Hp; discriminate].
  - cbn [scan]. apply pspec_pbind. apply pspec_lift.
    unfold time_time. cbn [fst snd]. rewrite Hh.
    set (w1 := set_ticks (S (w_ticks w)) w).
    assert (E1 : extends (listing_ok base cur) w w1) by apply extends_tick.
    destruct (clock h (w_ticks w) - start >? search_budget)%Z eqn:Hover.
    { apply pspec_pret. split; [exact E1 | intros p Hp; discriminate]. }
    assert (Hin : In e es) by (apply Hincl; left; reflexivity).
    assert (Hb : (clock h (w_ticks w1 - 1) - start <= search_budget)%Z).
    { subst w1. cbn [w_ticks set_ticks]. replace (S (w_ticks w) - 1)%nat with (w_ticks w) by lia.
      rewrite Z.gtb_ltb in Hover. apply Z.ltb_ge in Hover. exact Hover. }
    apply pspec_pbind.
    eapply pspec_weaken.
    { assert (Ht1 : (1 <= w_ticks w1)%nat) by (subst w1; cbn; lia).
      apply (@scan_entry_spec descend base cur es e w1 Hh Hs Hin Hcur Ht1 Hb).
      intros Hdeep Hk. apply Hdesc; auto. }
    intros r w2 [E2 Hr].
    assert (E12 : extends (listing_ok base cur) w w2)
      by (eapply extends_trans; eassumption).
    destruct r as [[|res]|x].
    + eapply pspec_weaken.
      { apply IH.
        - intros x Hx. apply Hincl. right. exact Hx.
        - destruct E2 as [Hh2 _]. rewrite Hh2. exact Hh. }
      intros r w3 [E3 F3]. split; [|exact F3].
      eapply extends_trans; eassumption.
    + apply pspec_pret. split; [exact E12 | exact Hr].
    + split; [exact E12 | intros p Hp; discriminate].
Qed.

(** One call of the search, given what the nested calls do. *)
Lemma search_step (fuel : nat) (base : pystr) (cur : Z)
    (start_opt : option Z) (w : world) :
  w_host w = h ->
  match start_opt with
  | Some s => s = start
  | None => start = clock h (w_ticks w)
  end ->
  ((cur <? max_depth - 1)%Z = true ->
   forall sub w1, w_host w1 = h ->
     pspec (recursive_folder_search_fuel fuel sub target max_depth (cur + 1)
              (Some start)) w1
           (search_post sub (cur + 1) w1)) ->
  pspec (recursive_folder_search_fuel (S fuel) base target max_depth cur start_opt)
        w (search_post base cur w).
Proof.
  intros Hh Hstart Hdesc.
  cbn [recursive_folder_search_fuel].
  apply pspec_pbind.
  assert (Hfirst : exists w0,
             extends (listing_ok base cur) w w0 /\ w_host w0 = h
             /\ pspec (match start_opt with
                       | Some t => pret t
                       | None => lift time_time
                       end) w
                      (fun r w' => r = Ret start /\ w' = w0)).
  { destruct start_opt as [s|].
    - exists w. split; [apply extends_refl|]. split; [exact Hh|].
      apply pspec_pret. subst s. auto.
    - exists (set_ticks (S (w_ticks w)) w). split; [apply extends_tick|].
      split; [exact Hh|]. apply pspec_lift. unfold time_time. cbn [fst snd].
      rewrite Hh, Hstart. auto. }
  destruct Hfirst as [w0 [E0 [Hh0 Hp0]]].
  eapply pspec_weaken; [exact Hp0|]. clear Hp0.
  intros r w' [-> ->].
  apply pspec_pbind. apply pspec_lift. unfold time_time. cbn [fst snd]. rewrite Hh0.
  set (w1 := set_ticks (S (w_ticks w0)) w0).
  assert (E1 : extends (listing_ok base cur) w w1).
  { eapply extends_trans; [exact E0 | apply extends_tick]. }
  destruct (clock h (w_ticks w0) - start >? search_budget)%Z eqn:Hover.
  { apply pspec_pbind. apply pspec_lift. unfold logger. cbn [fst snd].
    apply pspec_pret. split; [|intros p Hp; discriminate].
    eapply extends_trans; [exact E1 | apply extends_log]. }
  destruct (cur >=? max_depth)%Z eqn:Hdepth.
  { apply pspec_pret. split; [exact E1 | intros p Hp; discriminate]. }
  assert (Hcur : (cur < max_depth)%Z).
  { rewrite Z.geb_leb in Hdepth. apply Z.leb_gt in Hdepth. exact Hdepth. }
  assert (Hb : (clock h (w_ticks w0) - start <= search_budget)%Z).
  { rewrite Z.gtb_ltb in Hover. apply Z.ltb_ge in Hover. exact Hover. }
  apply pspec_ptry. apply pspec_pbind. apply pspec_lift.
  unfold os_scandir. cbn [fst snd]. change (w_host w1) with (w_host w0). rewrite Hh0.
  set (w2 := add_action (ActScandir base) w1).
  assert (E2 : extends (listing_ok base cur) w w2).
  { eapply extends_trans; [exact E1|].
    split; [reflexivity|]. split; [cbn; lia|].
    exists [(w_ticks w1, ActScandir base)]. split; [reflexivity|].
    constructor; [|constructor].
    exists base, 0%nat. cbn [fst snd].
    split; [reflexivity|]. split; [constructor|]. split; [lia|].
    subst w1. cbn [w_ticks set_ticks]. split; [lia|].
    replace (S (w_ticks w0) - 1)%nat with (w_ticks w0) by lia. exact Hb. }
  destruct (scandir h base) as [entries|x] eqn:Hs.
  - eapply pspec_weaken.
    { apply (@scan_spec
               (fun sub => recursive_folder_search_fuel fuel sub target
                             max_depth (cur + 1) (Some start))
               base cur entries Hs Hcur).
      - intros Hdeep e w3 _ _ Hh3. apply Hdesc; assumption.
      - apply incl_refl.
      - exact Hh0. }
    intros r w3 [E3 F3].
    assert (E : extends (listing_ok base cur) w w3)
      by (eapply extends_trans; eassumption).
    destruct r as [res|x].
    + split; assumption.
    + destruct (is_OSError x).
      * apply pspec_pbind. apply pspec_lift. unfold logger. cbn [fst snd].
        apply pspec_pret. split; [|intros p Hp; discriminate].
        eapply extends_trans; [exact E | apply extends_log].
      * split; [exact E | intros p Hp; discriminate].
  - destruct (is_OSError x).
    + apply pspec_pbind. apply pspec_lift. unfold logger. cbn [fst snd].
      apply pspec_pret. split; [|intros p Hp; discriminate].
      eapply extends_trans; [exact E2 | apply extends_log].
    + split; [exact E2 | intros p Hp; discriminate].
Qed.

(** The search has enough fuel as soon as the fuel exceeds the depth that
    is left, on every host. *)
Lemma search_spec (n : nat) :
  forall (base : pystr) (cur : Z) (start_opt : option Z) (w : world),
    w_host w = h ->
    match start_opt with
    | Some s => s = start
    | None => start = clock h (w_ticks w)
    end ->
    (Z.to_nat (max_depth - cur) <= n)%nat ->
    pspec (recursive_folder_search_fuel (S n) base target max_depth cur start_opt)
          w (search_post base cur w).
Proof.
  induction n as [|n IH]; intros base cur start_opt w Hh Hstart Hn;
    apply search_step; auto; intros Hdeep sub w1 Hh1.
  - apply Z.ltb_lt in Hdeep. lia.
  - apply IH; auto. apply Z.ltb_lt in Hdeep. lia.
Qed.

End SearchFacts.

(** Within one level below [base] there is [base] itself and its real
    subdirectories. *)
Lemma real_subdir_shallow (h : host) (n : nat) (base p : pystr) :
  real_subdir h n base p -> (n <= 1)%nat ->
  p = base
  \/ exists es e, scandir h base = Ret es /\ In e es /\ de_kind e = KDir
                  /\ p = join base (de_name e).
Proof.
  intros Hr Hn. inversion Hr as [|n' b es e p' Hs Hin Hk Hr']; subst.
  - left. reflexivity.
  - right. exists es, e. repeat (split; [assumption|]).
    inversion Hr'; subst; [reflexivity | lia].
Qed.

(** A first check of the clock that is over the budget ends the search
    before any directory is listed. *)
Lemma search_times_out_at_entry (base target : pystr) (w : world) :
  (clock (w_host w) (S (w_ticks w)) - clock (w_host w) (w_ticks w)
   > search_budget)%Z ->
  exists w',
    recursive_folder_search base target 2 0 None w = (Ret None, w')
    /\ w_trace w' = w_trace w.
Proof.
  intro Hover. apply Z.gt_lt in Hover. apply Z.ltb_lt in Hover.
  rewrite <- Z.gtb_ltb in Hover.
  unfold recursive_folder_search, search_fuel.
  cbn [recursive_folder_search_fuel Z.to_nat Z.sub Z.add Z.opp Pos.to_nat
       Pos.iter_op Nat.add].
  unfold pbind, lift, time_time, pret, logger.
  cbn [w_host w_ticks set_ticks]. rewrite Hover.
  eexists. split; reflexivity.
Qed.

(** C9.  The search returns on every host, whatever the directory tree
    and the clock, with the fuel that its depth arguments call for.  As
    the program calls it (depth limit 2, from depth 0) it lists only the
    search root and real subdirectories of it, never through a symbolic
    link, and each listing follows a reading of the clock within the
    budget; a folder it returns is a real directory entry of one of those
    (so at most two levels below the root); with a clock that never goes
    back a folder is returned only if every reading of the search was
    within two seconds of its start; and a first check over the budget
    returns not-found without listing anything. *)
Theorem recursive_folder_search_bounded (base target : pystr) (w : world) :
  let h := w_host w in
  let start := clock h (w_ticks w) in
  (forall (max_depth cur : Z) (start_opt : option Z) (n : nat),
      (Z.to_nat (max_depth - cur) <= n)%nat ->
      exists r w',
        recursive_folder_search_fuel (S n) base target max_depth cur
          start_opt w = Some (r, w'))
  /\ exists r w',
       recursive_folder_search base target 2 0 None w = (r, w')
       /\ w_host w' = h
       /\ (exists seg,
              w_trace w' = seg ++ w_trace w
              /\ Forall
                   (fun ka =>
                      exists p,
                        snd ka = ActScandir p
                        /\ (p = base
                            \/ exists es e,
                                 scandir h base = Ret es /\ In e es
                                 /\ de_kind e = KDir
                                 /\ p = join base (de_name e))
                        /\ (1 <= fst ka)%nat
                        /\ (clock h (fst ka - 1) - start <= search_budget)%Z)
                   seg)
       /\ (forall p, r = Ret (Some p) ->
             exists parent es e,
               (parent = base
                \/ exists es0 e0,
                     scandir h base = Ret es0 /\ In e0 es0
                     /\ de_kind e0 = KDir
                     /\ parent = join base (de_name e0))
               /\ scandir h parent = Ret es /\ In e es
               /\ de_kind e = KDir
               /\ p = join parent (de_name e))
       /\ (monotone_clock h ->
           forall p, r = Ret (Some p) ->
           forall k, (k < w_ticks w')%nat ->
             (clock h k - start <= search_budget)%Z)
       /\ ((clock h (S (w_ticks w)) - start > search_budget)%Z ->
           r = Ret None /\ w_trace w' = w_trace w).
Proof.
  cbv zeta. split.
  - intros max_depth cur start_opt n Hn.
    destruct (@search_spec (w_host w) target max_depth
                (match start_opt with
                 | Some s => s
                 | None => clock (w_host w) (w_ticks w)
                 end) n base cur start_opt w eq_refl) as [r [w' [E _]]].
    + destruct start_opt; reflexivity.
    + exact Hn.
    + exists r, w'. exact E.
  - destruct (@search_spec (w_host w) target 2
                (clock (w_host w) (w_ticks w)) 2 base 0 None w
                eq_refl eq_refl) as [r [w' [E [[Hh [Ht [seg [Hseg HF]]]] Hfound]]]].
    { cbn. lia. }
    exists r, w'. split.
    { unfold recursive_folder_search, search_fuel.
      change (S (Z.to_nat (2 - 0))) with 3%nat. rewrite E. reflexivity. }
    split; [exact Hh|]. split.
    { exists seg. split; [exact Hseg|].
      eapply Forall_impl; [|exact HF].
      intros ka [p [n [Ha [Hr [Hd [Hk Hb]]]]]].
      exists p. split; [exact Ha|]. split; [|split; assumption].
      apply (real_subdir_shallow Hr). lia. }
    split.
    { intros p Hp.
      destruct (Hfound p Hp) as [[n [parent [es [e [Hr [Hs [Hin [Hk [Ep [Hd _]]]]]]]]]] _].
      exists parent, es, e. split; [|repeat split; assumption].
      apply (real_subdir_shallow Hr). lia. }
    split.
    { intros Hmono p Hp k Hk.
      destruct (Hfound p Hp) as [_ [Hone Hlast]].
      assert (Hle : (clock (w_host w) k <= clock (w_host w) (w_ticks w' - 1))%Z)
        by (apply Hmono; lia).
      lia. }
    intro Hover.
    destruct (@search_times_out_at_entry base target w Hover) as [w'' [E' Htr]].
    assert (Heq : (r, w') = (Ret None, w'')).
    { rewrite <- E'. unfold recursive_folder_search, search_fuel.
      change (S (Z.to_nat (2 - 0))) with 3%nat. rewrite E. reflexivity. }
    inversion Heq; subst. split; [reflexivity | exact Htr].
Qed.

Lemma desk_clock_monotone (home : pystr) (answers : list pystr -> res completed) :
  monotone_clock (Desk.desk home answers).
Proof. intros i j Hij. unfold Desk.desk. cbn [clock]. lia. Qed.

Lemma recursive_folder_search_bounded_witness :
  exists r w',
    recursive_folder_search (u "/home/al") (u "app") 2 0 None Desk.al = (r, w')
    /\ (forall p, r = Ret (Some p) ->
        forall k, (k < w_ticks w')%nat ->
          (clock (w_host Desk.al) k - clock (w_host Desk.al) 0
           <= search_budget)%Z).
Proof.
  destruct (recursive_folder_search_bounded (u "/home/al") (u "app") Desk.al)
    as [_ [r [w' [E [_ [_ [_ [Hmono _]]]]]]]].
  exists r, w'. split; [exact E|].
  intros p Hp k Hk.
  apply (Hmono (desk_clock_monotone (u "/home/al") Desk.no_tools) p Hp k Hk).
Defined.

(** On Al's desktop the search for [app] finds [Projects/App] without
    entering the hidden, excluded or linked entries, and a folder three
    levels down is not found. *)
Example search_finds_app :
  let r := recursive_folder_search (u "/home/al") (u "app") 2 0 None Desk.al in
  fst r = Ret (Some (u "/home/al/Projects/App"))
  /\ List.map snd (w_trace (snd r))
     = [ ActScandir (u "/home/al/Projects");
         ActScandir (u "/home/al/Documents");
         ActScandir (u "/home/al") ]
  /\ fst (recursive_folder_search (u "/home/al") (u "deep") 2 0 None Desk.al)
     = Ret None.
Proof. vm_compute. repeat split. Qed.

(* ===================================================================== *)
(** * Further properties of the validators *)
(* ===================================================================== *)

Local Open Scope py_scope.

(** [cmd.split()[0]] never raises [IndexError]: every candidate has a
    command token. *)
Lemma command_token_total (cmd : pystr) : exists t, command_token cmd = Ret t.
Proof.
  destruct (has_char 32%N (strip cmd)) eqn:E.
  - destruct (command_token_space cmd E) as [t [rest [_ Ht]]]. eauto.
  - exists (strip cmd). apply command_token_no_space. exact E.
Qed.

(** The editor validator never raises on a host whose file calls raise
    only [OSError] or [ValueError], and it leaves the world as it was. *)
Theorem validate_editor_command_returns (cmd : option pystr) (w : world) :
  file_errors_only (w_host w) ->
  exists r, validate_editor_command cmd w = (Ret r, w).
Proof.
  intros [Hrp [Hsz Hst]].
  unfold validate_editor_command.
  destruct cmd as [c|]; [|eexists; reflexivity].
  destruct (nonempty c); [|eexists; reflexivity].
  unfold bind at 1. cbv beta iota zeta delta [negb].
  destruct (command_token_total c) as [t Ht]. rewrite Ht. cbv beta iota.
  destruct (mem (basename t) dangerous_commands || startswith (u "rm") (basename t));
    [eexists; reflexivity|].
  unfold executable_checks, try_except, bind, ask, ask_res, ret.
  repeat first
    [ progress cbv beta iota
    | match goal with
      | H : realpath _ _ = Exc ?e |- context [is_OSError ?e || is_ValueError ?e] =>
          rewrite (Hrp _ _ H)
      | H : getsize _ _ = Exc ?e |- context [is_OSError ?e || is_ValueError ?e] =>
          rewrite (Hsz _ _ H)
      | H : stat _ _ = Exc ?e |- context [is_OSError ?e || is_ValueError ?e] =>
          rewrite (Hst _ _ H)
      end
    | step_m ];
    eexists; reflexivity.
Qed.

Lemma desk_file_errors_only (home : pystr) (answers : list pystr -> res completed) :
  file_errors_only (Desk.desk home answers).
Proof. repeat split; intros p e H; discriminate H. Qed.

Lemma validate_editor_command_returns_witness :
  exists r, validate_editor_command (Some (u "code --wait")) Desk.al
            = (Ret r, Desk.al).
Proof.
  apply (@validate_editor_command_returns (Some (u "code --wait")) Desk.al).
  apply desk_file_errors_only.
Defined.
